(** * kraken.std.git.gitignore: the gitignore document engine

    A shallow embedding of [src/kraken/std/git/gitignore.py] and the
    properties of its parser, renderer, sorter, hashing and refresh pipeline.

    Python [str] values are modelled as [string]; a character is a code point
    below 256 (the Latin-1 block), for which [str.isspace], [str.lower], the
    code-point order of [<] and the UTF-8 encoding are written out below. *)

From Stdlib Require Import List Arith NArith ZArith Lia Bool Ascii String.
From Stdlib Require Import Permutation.
From Equations Require Import Equations.
Import ListNotations.
Open Scope string_scope.

Set Implicit Arguments.

(* ===================================================================== *)
(** ** Python string primitives *)
(* ===================================================================== *)

Module Py.

Definition chr (n : nat) : ascii := ascii_of_nat n.
Definition nl_char : ascii := chr 10.
Definition cr_char : ascii := chr 13.
Definition hash_char : ascii := chr 35.
Definition quote_char : ascii := chr 34.
Definition nl : string := String nl_char "".
Definition quote : string := String quote_char "".

(** [str.isspace] on one code point below 256: TAB..CR, FS..US, SPACE,
    NEL (0x85) and NBSP (0xA0). *)
Definition is_space (c : ascii) : bool :=
  let n := nat_of_ascii c in
  (((9 <=? n) && (n <=? 13)) || ((28 <=? n) && (n <=? 32))
   || (n =? 133) || (n =? 160))%nat.

(** [str.lower] on one code point below 256: A..Z and the upper-case
    letters of 0xC0..0xDE (0xD7, the multiplication sign, is not a letter). *)
Definition lower_char (c : ascii) : ascii :=
  let n := nat_of_ascii c in
  if (((65 <=? n) && (n <=? 90))
      || ((192 <=? n) && (n <=? 222) && negb (n =? 215)))%nat
  then chr (n + 32) else c.

Fixpoint lower (s : string) : string :=
  match s with
  | "" => ""
  | String c r => String (lower_char c) (lower r)
  end.

(** [s.lstrip(chars)] and [s.rstrip(chars)], the set of characters given
    as a predicate. *)
Fixpoint lstrip_by (p : ascii -> bool) (s : string) : string :=
  match s with
  | "" => ""
  | String c r => if p c then lstrip_by p r else s
  end.

Fixpoint rstrip_by (p : ascii -> bool) (s : string) : string :=
  match s with
  | "" => ""
  | String c r =>
      match rstrip_by p r with
      | "" => if p c then "" else String c ""
      | r' => String c r'
      end
  end.

Definition lstrip : string -> string := lstrip_by is_space.
Definition rstrip : string -> string := rstrip_by is_space.
(** [s.strip()] *)
Definition strip (s : string) : string := lstrip (rstrip s).

Definition is_char (c d : ascii) : bool := Ascii.eqb c d.

(** [s.startswith(p)] *)
Definition startswith (p s : string) : bool := String.prefix p s.

(** [s[1:]] *)
Definition tail (s : string) : string :=
  match s with "" => "" | String _ r => r end.

(** [sep.join(l)] *)
Definition join (sep : string) (l : list string) : string :=
  String.concat sep l.

(** [s.replace(c, empty)] for a one-character [c]. *)
Fixpoint remove_char (c : ascii) (s : string) : string :=
  match s with
  | "" => ""
  | String d r => if is_char c d then remove_char c r
                  else String d (remove_char c r)
  end.

(** [s.split] at newlines: the pieces between newlines, never an empty list. *)
Fixpoint split_nl (s : string) : list string :=
  match s with
  | "" => [""]
  | String c r =>
      if is_char nl_char c then "" :: split_nl r
      else match split_nl r with
           | [] => [String c ""]
           | l :: ls => String c l :: ls
           end
  end.

(** Iterating over [io.StringIO(s)]: the lines of [s], each with its
    terminating newline when it has one. *)
Fixpoint readlines (s : string) : list string :=
  match s with
  | "" => []
  | String c r =>
      if is_char nl_char c then String c "" :: readlines r
      else match readlines r with
           | [] => [String c ""]
           | l :: ls => String c l :: ls
           end
  end.

Fixpoint contains_char (c : ascii) (s : string) : bool :=
  match s with
  | "" => false
  | String d r => is_char c d || contains_char c r
  end.

(** [s[len(p):]] when [s] starts with [p]. *)
Fixpoint strip_prefix (p s : string) : option string :=
  match p, s with
  | "", _ => Some s
  | String a p', String b s' =>
      if Ascii.eqb a b then strip_prefix p' s' else None
  | String _ _, "" => None
  end.

(** The last character of a string and what precedes it. *)
Fixpoint unsnoc (s : string) : option (string * ascii) :=
  match s with
  | "" => None
  | String c r =>
      match unsnoc r with
      | None => Some ("", c)
      | Some (r', d) => Some (String c r', d)
      end
  end.

(** [re.match] of a pattern made of [^], the literal [prefix], one greedy
    group of any characters, the literal character [close] and [$]: the
    text of the group.  The dot of the group does not match a newline and
    [$] also matches just before a final newline. *)
Definition match_bracketed (prefix : string) (close : ascii) (s : string)
  : option string :=
  match strip_prefix prefix s with
  | None => None
  | Some rest =>
      let body := match unsnoc rest with
                  | Some (b, c) => if is_char nl_char c then b else rest
                  | None => rest
                  end in
      match unsnoc body with
      | Some (mid, c) =>
          if is_char close c && negb (contains_char nl_char mid)
          then Some mid else None
      | None => None
      end
  end.

(** Stable sort of a list by [key], keys compared with [<] on strings, as
    [list.sort(key=...)] does. *)
Section Sort.
Variable A : Type.
Variable key : A -> string.

Fixpoint insert (x : A) (l : list A) : list A :=
  match l with
  | [] => [x]
  | y :: l' =>
      if String.ltb (key y) (key x) then y :: insert x l' else x :: l
  end.

Fixpoint sort (l : list A) : list A :=
  match l with
  | [] => []
  | x :: l' => insert x (sort l')
  end.
End Sort.

(** [list.insert(index, x)], with Python's clamping of the index. *)
Definition list_insert {A} (index : Z) (x : A) (l : list A) : list A :=
  let len := Z.of_nat (List.length l) in
  let i := if (index <? 0)%Z then Z.max 0 (index + len) else Z.min index len in
  firstn (Z.to_nat i) l ++ x :: skipn (Z.to_nat i) l.

End Py.

Arguments Py.is_char : simpl never.

(* ===================================================================== *)
(** ** hashlib.sha256 and UTF-8 *)
(* ===================================================================== *)

Module Sha256.
Local Open Scope N_scope.

Definition w32 (x : N) : N := x mod 2 ^ 32.
Definition add32 (x y : N) : N := w32 (x + y).
Definition rotr (n x : N) : N :=
  N.lor (N.shiftr x n) (w32 (N.shiftl x (32 - n))).
Definition not32 (x : N) : N := N.lxor x 0xffffffff.

Definition Ch (x y z : N) := N.lxor (N.land x y) (N.land (not32 x) z).
Definition Maj (x y z : N) :=
  N.lxor (N.lxor (N.land x y) (N.land x z)) (N.land y z).
Definition Sigma0 x := N.lxor (N.lxor (rotr 2 x) (rotr 13 x)) (rotr 22 x).
Definition Sigma1 x := N.lxor (N.lxor (rotr 6 x) (rotr 11 x)) (rotr 25 x).
Definition sigma0 x := N.lxor (N.lxor (rotr 7 x) (rotr 18 x)) (N.shiftr x 3).
Definition sigma1 x := N.lxor (N.lxor (rotr 17 x) (rotr 19 x)) (N.shiftr x 10).

(** The round constants and the initial state are the first 32 bits of the
    fractional parts of the cube roots of the first 64 primes, and of the
    square roots of the first 8. *)
Fixpoint iroot_bits (k n : N) (bits : nat) (r : N) : N :=
  match bits with
  | O => r
  | S b =>
      let r' := r + 2 ^ N.of_nat b in
      if r' ^ k <=? n then iroot_bits k n b r' else iroot_bits k n b r
  end.

Definition iroot (k n : N) : N := iroot_bits k n 40 0.

Definition is_prime (p : nat) : bool :=
  forallb (fun d => negb (p mod d =? 0)%nat) (seq 2 (p - 2)).

Definition primes : list N :=
  map N.of_nat (filter is_prime (seq 2 310)).

Definition K : list N :=
  Eval vm_compute in map (fun p => w32 (iroot 3 (p * 2 ^ 96))) primes.

Definition H0 : list N :=
  Eval vm_compute in map (fun p => w32 (iroot 2 (p * 2 ^ 64))) (firstn 8 primes).

(** The message with its padding: a 1 bit, zeros, and the bit length as a
    64-bit big-endian number, up to a multiple of 64 bytes. *)
Fixpoint be_bytes (n : nat) (x : N) : list N :=
  match n with
  | O => []
  | S n' => (N.shiftr x (8 * N.of_nat n')) mod 256 :: be_bytes n' x
  end.

Definition pad (msg : list N) : list N :=
  let len := List.length msg in
  let zeros := ((64 - (len + 9) mod 64) mod 64)%nat in
  msg ++ [0x80] ++ repeat 0 zeros ++ be_bytes 8 (8 * N.of_nat len).

Fixpoint chunks_fuel {A} (fuel n : nat) (l : list A) : list (list A) :=
  match fuel, l with
  | O, _ | _, [] => []
  | S f, _ => firstn n l :: chunks_fuel f n (skipn n l)
  end.
Definition chunks {A} (n : nat) (l : list A) : list (list A) :=
  chunks_fuel (List.length l) n l.

Definition word_of_bytes (bs : list N) : N :=
  fold_left (fun acc b => acc * 256 + b) bs 0.

(** The message schedule: a window of the last sixteen words slides over
    the 64 rounds. *)
Fixpoint schedule (rounds : nat) (window : list N) : list N :=
  match rounds with
  | O => []
  | S r =>
      match window with
      | [] => []
      | w0 :: rest =>
          let w := add32 (add32 (sigma1 (nth 14 window 0)) (nth 9 window 0))
                         (add32 (sigma0 (nth 1 window 0)) w0) in
          w0 :: schedule r (rest ++ [w])
      end
  end.

Definition round (st : list N) (kw : N * N) : list N :=
  match st with
  | [a; b; c; d; e; f; g; h] =>
      let t1 := add32 (add32 (add32 h (Sigma1 e)) (add32 (Ch e f g) (fst kw)))
                      (snd kw) in
      let t2 := add32 (Sigma0 a) (Maj a b c) in
      [add32 t1 t2; a; b; c; add32 d t1; e; f; g]
  | _ => st
  end.

Definition compress (st : list N) (block : list N) : list N :=
  let w := schedule 64 (map word_of_bytes (chunks 4 block)) in
  let st' := fold_left round (combine K w) st in
  map (fun p => add32 (fst p) (snd p)) (combine st st').

Definition digest_words (msg : list N) : list N :=
  fold_left compress (chunks 64 (pad msg)) H0.

Definition hex_digit (n : N) : ascii :=
  nth (N.to_nat n)
      (list_ascii_of_string "0123456789abcdef") "0"%char.

Fixpoint hex_nibbles (n : nat) (x : N) : string :=
  match n with
  | O => ""
  | S n' => String (hex_digit ((N.shiftr x (4 * N.of_nat n')) mod 16))
                   (hex_nibbles n' x)
  end.

(** [hashlib.sha256(msg).hexdigest()] *)
Definition hexdigest (msg : list N) : string :=
  String.concat "" (map (hex_nibbles 8) (digest_words msg)).

(** [s.encode] to UTF-8, for code points below 256. *)
Fixpoint utf8 (s : string) : list N :=
  match s with
  | "" => []
  | String c r =>
      let n := N_of_ascii c in
      if n <? 128 then n :: utf8 r
      else (0xc0 + n / 64) :: (0x80 + n mod 64) :: utf8 r
  end.

End Sha256.

(** [hash_content], line 56 *)
Definition hash_content (content : string) : string :=
  Sha256.hexdigest (Sha256.utf8 content).

Arguments hash_content : simpl never.

(** [hash_parameters], line 60 *)
Definition hash_parameters (tokens extra_paths : list string) : string :=
  hash_content (Py.join "," (tokens ++ extra_paths)).

(* ===================================================================== *)
(** ** Constants, lines 14-24 *)
(* ===================================================================== *)

Definition GITIGNORE_API_URL : string :=
  "https://www.toptal.com/developers/gitignore/api/".

Definition GUARD_START_PREFIX : string := "### START-GENERATED-CONTENT [HASH: ".
Definition PARAMETER_HASH_PREFIX : string := "### [PARAMETERS_HASH: ".

(** [TEMPLATE.format(hash=h)] *)
Definition GENERATED_GUARD_START_TEMPLATE (hash : string) : string :=
  GUARD_START_PREFIX ++ hash ++ "]".
Definition PARAMETER_HASH_TEMPLATE (hash : string) : string :=
  PARAMETER_HASH_PREFIX ++ hash ++ "]".

(** [re.match(REGEX, line)], as the text of group 1 *)
Definition GENERATED_GUARD_START_REGEX (line : string) : option string :=
  Py.match_bracketed GUARD_START_PREFIX "]" line.
Definition PARAMETER_HASH_REGEX (line : string) : option string :=
  Py.match_bracketed PARAMETER_HASH_PREFIX "]" line.

Definition BANNER_RULE : string :=
  "# " ++ string_of_list_ascii (repeat "-"%char 97).

Definition GENERATED_GUARD_DESCRIPTION : string :=
  Py.join Py.nl
    [BANNER_RULE;
     "# THIS SECTION WAS AUTOMATICALLY GENERATED BY KRAKEN; DO NOT MODIFY OR YOUR CHANGES WILL BE LOST.";
     "# If you need to define custom gitignore rules, add them below";
     BANNER_RULE].

Definition GENERATED_GUARD_END : string := "### END-GENERATED-CONTENT".

(** How [format] and f-strings print an [Optional[str]]. *)
Definition format_optional (h : option string) : string :=
  match h with
  | Some s => s
  | None => "None"
  end.

(* ===================================================================== *)
(** ** Entry model, lines 31-53 *)
(* ===================================================================== *)

Inductive GitignoreEntryType : Type := COMMENT | BLANK | PATH.

Record GitignoreEntry : Type := Entry {
  type : GitignoreEntryType;
  value : string
}.

Definition is_comment (e : GitignoreEntry) : bool :=
  match type e with COMMENT => true | _ => false end.
Definition is_blank (e : GitignoreEntry) : bool :=
  match type e with BLANK => true | _ => false end.
Definition is_path (e : GitignoreEntry) : bool :=
  match type e with PATH => true | _ => false end.

(** [GitignoreEntry.__str__] *)
Definition entry_str (e : GitignoreEntry) : string :=
  if is_comment e then "# " ++ value e else value e.

(* ===================================================================== *)
(** ** The document and the effects of its methods *)
(* ===================================================================== *)

Record GitignoreFile : Type := File {
  entries : list GitignoreEntry;
  generated_content : string;
  generated_content_hash : option string;
  parameters_hash : option string
}.

(** [GitignoreFile(entries)]: the class-level defaults of the other fields. *)
Definition GitignoreFile_init (es : list GitignoreEntry) : GitignoreFile :=
  File es "" None None.

Definition set_entries (es : list GitignoreEntry) (d : GitignoreFile) :=
  File es (generated_content d) (generated_content_hash d) (parameters_hash d).
Definition set_generated_content (c : string) (d : GitignoreFile) :=
  File (entries d) c (generated_content_hash d) (parameters_hash d).
Definition set_generated_content_hash (h : option string) (d : GitignoreFile) :=
  File (entries d) (generated_content d) h (parameters_hash d).
Definition set_parameters_hash (h : option string) (d : GitignoreFile) :=
  File (entries d) (generated_content d) (generated_content_hash d) h.

Inductive exn : Type :=
| ValueError (msg : string)
| GitignoreException (msg : string)
| TransportError (msg : string).

Inductive outcome (A : Type) : Type :=
| Return (a : A)
| Raise (e : exn).
Arguments Return {A} a.
Arguments Raise {A} e.

(** A method of [GitignoreFile]: it runs on [self], returns or raises, and
    leaves [self] in a new state either way. *)
Definition M (A : Type) : Type := GitignoreFile -> outcome A * GitignoreFile.

Definition ret {A} (a : A) : M A := fun d => (Return a, d).
Definition raise {A} (e : exn) : M A := fun d => (Raise e, d).
Definition bind {A B} (m : M A) (k : A -> M B) : M B :=
  fun d => match m d with
           | (Return a, d') => k a d'
           | (Raise e, d') => (Raise e, d')
           end.
Definition gets {A} (f : GitignoreFile -> A) : M A := fun d => (Return (f d), d).
Definition modify (f : GitignoreFile -> GitignoreFile) : M unit :=
  fun d => (Return tt, f d).

Declare Scope method_scope.
Delimit Scope method_scope with method.
Notation "x <- m ;; k" := (bind m (fun x => k))
  (at level 61, m at next level, right associativity) : method_scope.
Notation "m ;; k" := (bind m (fun _ => k))
  (at level 61, right associativity) : method_scope.
Local Open Scope method_scope.

(** [for x in l: body(x)] *)
Fixpoint for_each {A} (l : list A) (body : A -> M unit) : M unit :=
  match l with
  | [] => ret tt
  | x :: l' => body x ;; for_each l' body
  end.

(** [next((i for i, e in enumerate(l) if p(e)), None)] *)
Fixpoint find_index {A} (p : A -> bool) (l : list A) : option nat :=
  match l with
  | [] => None
  | x :: l' => if p x then Some O
               else option_map S (find_index p l')
  end.

(** [del l[i]] for an index within the list. *)
Definition delete_at {A} (i : nat) (l : list A) : list A :=
  firstn i l ++ skipn (S i) l.

(* ===================================================================== *)
(** ** Entry operations, lines 73-102 *)
(* ===================================================================== *)

(** [e.is_comment() and e.value.lstrip('#').strip() == comment] *)
Definition comment_matches (comment : string) (e : GitignoreEntry) : bool :=
  is_comment e
  && String.eqb (Py.strip (Py.lstrip_by (Py.is_char Py.hash_char) (value e)))
                comment.

(** [find_comment], line 73 *)
Definition find_comment (comment : string) (self : GitignoreFile) : option nat :=
  find_index (comment_matches comment) (entries self).

(** [self.entries.insert(len(self.entries) if index is None else index, e)] *)
Definition insert_entry (index : option Z) (e : GitignoreEntry) : M unit :=
  modify (fun self =>
    let i := match index with
             | None => Z.of_nat (List.length (entries self))
             | Some i => i
             end in
    set_entries (Py.list_insert i e (entries self)) self).

(** [add_comment], [add_blank], [add_path], lines 81-91 *)
Definition add_comment (comment : string) (index : option Z) : M unit :=
  insert_entry index (Entry COMMENT comment).
Definition add_blank (index : option Z) : M unit :=
  insert_entry index (Entry BLANK "").
Definition add_path (path : string) (index : option Z) : M unit :=
  insert_entry index (Entry PATH path).

(** [e.is_path() and e.value == path] *)
Definition path_matches (path : string) (e : GitignoreEntry) : bool :=
  is_path e && String.eqb (value e) path.

Lemma find_index_lt {A} (p : A -> bool) (l : list A) (i : nat) :
  find_index p l = Some i -> i < List.length l.
Proof.
  revert i; induction l as [|x l IH]; simpl; intros i H; [discriminate|].
  destruct (p x).
  - injection H as <-. lia.
  - destruct (find_index p l) as [j|]; simpl in H; [|discriminate].
    injection H as <-. specialize (IH j eq_refl). lia.
Qed.

Lemma delete_at_length {A} (i : nat) (l : list A) :
  i < List.length l -> List.length (delete_at i l) < List.length l.
Proof.
  intros H. unfold delete_at.
  rewrite length_app, length_firstn, length_skipn. lia.
Qed.

Definition inspect {A} (a : A) : {b : A | a = b} := exist _ a eq_refl.

(** The [while True] loop of [remove_path], lines 95-100, on the list and
    the counter it updates. *)
Equations? remove_loop (path : string) (es : list GitignoreEntry) (removed : nat)
  : list GitignoreEntry * nat by wf (List.length es) lt :=
  remove_loop path es removed with inspect (find_index (path_matches path) es) := {
    | exist _ None _ := (es, removed);
    | exist _ (Some index) Hfind := remove_loop path (delete_at index es) (S removed)
  }.
Proof.
  apply delete_at_length, (find_index_lt _ _ Hfind).
Qed.

(** [remove_path], line 93 *)
Definition remove_path (path : string) : M unit :=
  es <- gets entries ;;
  let '(es', removed) := remove_loop path es 0 in
  modify (set_entries es') ;;
  if (removed =? 0)%nat
  then raise (ValueError (Py.quote ++ path ++ Py.quote ++ " not in GitignoreFile"))
  else ret tt.

(* ===================================================================== *)
(** ** Rendering, refreshing and checking, lines 104-144 *)
(* ===================================================================== *)

(** [render], line 104 *)
Definition render (self : GitignoreFile) : string :=
  let guarded_section :=
    [GENERATED_GUARD_START_TEMPLATE (format_optional (generated_content_hash self));
     generated_content self;
     GENERATED_GUARD_END] in
  let user_content := map entry_str (entries self) in
  Py.join Py.nl guarded_section ++ Py.nl ++ Py.join Py.nl user_content ++ Py.nl.

(** What [httpx.get(url)] gives back: a response, or an exception of the
    transport. *)
Inductive http_result : Type :=
| Response (status_code : Z) (text : string)
| Failure (msg : string).

(** The text joined at lines 125-135. *)
Definition assemble_generated_content (parameters_hash fetched_content : string)
    (extra_paths : list string) : string :=
  Py.join Py.nl
    ([GENERATED_GUARD_DESCRIPTION;
      PARAMETER_HASH_TEMPLATE parameters_hash;
      "";
      fetched_content;
      "# Extra paths"]
     ++ extra_paths
     ++ [BANNER_RULE]).

(** [refresh_generated_content], line 113; [httpx_get] is the template
    provider. *)
Definition refresh_generated_content (httpx_get : string -> http_result)
    (tokens extra_paths : list string) : M unit :=
  match httpx_get (GITIGNORE_API_URL ++ Py.join "," tokens) with
  | Failure msg => raise (TransportError msg)
  | Response status_code text =>
      if negb (status_code =? 200)%Z
      then raise (GitignoreException
                    ("Error status code returned from " ++ GITIGNORE_API_URL))
      else
        let fetched_content := Py.remove_char Py.cr_char text in
        let h := hash_parameters tokens extra_paths in
        modify (set_parameters_hash (Some h)) ;;
        modify (set_generated_content
                  (assemble_generated_content h fetched_content extra_paths))
  end.

(** [refresh_generated_content_hash], line 137 *)
Definition refresh_generated_content_hash : M unit :=
  modify (fun self =>
    set_generated_content_hash (Some (hash_content (generated_content self))) self).

Definition option_string_eqb (a b : option string) : bool :=
  match a, b with
  | Some x, Some y => String.eqb x y
  | None, None => true
  | _, _ => false
  end.

(** [check_generation_parameters], line 140 *)
Definition check_generation_parameters (tokens extra_paths : list string)
    (self : GitignoreFile) : bool :=
  option_string_eqb (parameters_hash self)
                    (Some (hash_parameters tokens extra_paths)).

(** [check_generated_content_hash], line 143 *)
Definition check_generated_content_hash (self : GitignoreFile) : bool :=
  option_string_eqb (generated_content_hash self)
                    (Some (hash_content (generated_content self))).

(** [islice(l, start, stop)] with [None] for a bound left out. *)
Definition islice {A} (l : list A) (start stop : option nat) : list A :=
  let a := match start with Some a => a | None => O end in
  match stop with
  | Some b => firstn (b - a) (skipn a l)
  | None => skipn a l
  end.

(** [paths], line 78 *)
Definition paths (start stop : option nat) (self : GitignoreFile) : list string :=
  map value (filter is_path (islice (entries self) start stop)).

(* ===================================================================== *)
(** ** Sorting, lines 146-189 *)
(* ===================================================================== *)

Module Group.
Record t : Type := Make {
  comments : list string;
  paths : list string
}.
End Group.

(** [l[-1] = f(l[-1])] on a list that is not empty. *)
Fixpoint update_last {A} (f : A -> A) (l : list A) : list A :=
  match l with
  | [] => []
  | [x] => [f x]
  | x :: l' => x :: update_last f l'
  end.

Definition empty_group : Group.t := Group.Make [] [].

Definition nonempty {A} (l : list A) : bool :=
  match l with [] => false | _ :: _ => true end.

(** The body of the grouping loop, lines 164-172; [groups[-1]] is the
    group being filled. *)
Definition group_step (groups : list Group.t) (entry : GitignoreEntry)
  : list Group.t :=
  if is_path entry then
    update_last (fun g => Group.Make (Group.comments g)
                                     (Group.paths g ++ [value entry])) groups
  else if is_comment entry then
    if nonempty (Group.paths (last groups empty_group))
    then groups ++ [Group.Make [value entry] []]
    else update_last (fun g => Group.Make (Group.comments g ++ [value entry])
                                          (Group.paths g)) groups
  else groups.

Definition collect_groups (es : list GitignoreEntry) : list Group.t :=
  fold_left group_step es [empty_group].

(** [key=lambda g: newline.join(g.comments).lower()] *)
Definition group_key (g : Group.t) : string :=
  Py.lower (Py.join Py.nl (Group.comments g)).

(** [sort_gitignore], line 146 *)
Definition sort_gitignore (sort_paths sort_groups : bool) : M unit :=
  es <- gets entries ;;
  let groups := collect_groups es in
  let groups := if sort_groups then Py.sort group_key groups else groups in
  modify (set_entries []) ;;
  add_blank None ;;
  for_each groups (fun group =>
    let group_paths := if sort_paths then Py.sort Py.lower (Group.paths group)
                       else Group.paths group in
    for_each (Group.comments group) (fun comment => add_comment comment None) ;;
    for_each group_paths (fun path => add_path path None) ;;
    add_blank None) ;;
  es' <- gets entries ;;
  if nonempty es' && is_blank (last es' (Entry BLANK ""))
  then modify (set_entries (removelast es'))
  else ret tt.

(* ===================================================================== *)
(** ** Parsing, lines 191-232 *)
(* ===================================================================== *)

Inductive State : Type := USER | GENERATED.

(** The local variables of [parse]. *)
Record parser : Type := Parser {
  gitignore : GitignoreFile;
  state : State;
  generated_lines : list string
}.

Definition append_entry (e : GitignoreEntry) (d : GitignoreFile) : GitignoreFile :=
  set_entries (entries d ++ [e]) d.

(** The entry a line of the user section becomes, lines 214-219. *)
Definition user_entry (line : string) : GitignoreEntry :=
  if Py.startswith "#" line
  then Entry COMMENT (Py.lstrip (Py.tail line))
  else if String.eqb (Py.strip line) ""
  then Entry BLANK ""
  else Entry PATH line.

(** The body of the loop over the lines, lines 209-228, on a line whose
    newline is already stripped. *)
Definition process_line (p : parser) (line : string) : parser :=
  match state p with
  | USER =>
      match GENERATED_GUARD_START_REGEX line with
      | Some h =>
          Parser (set_generated_content_hash (Some h) (gitignore p))
                 GENERATED (generated_lines p)
      | None =>
          Parser (append_entry (user_entry line) (gitignore p))
                 USER (generated_lines p)
      end
  | GENERATED =>
      if String.eqb line GENERATED_GUARD_END
      then Parser (set_generated_content (Py.join Py.nl (generated_lines p))
                                         (gitignore p))
                  USER (generated_lines p)
      else
        let d := match PARAMETER_HASH_REGEX line with
                 | Some h => set_parameters_hash (Some h) (gitignore p)
                 | None => gitignore p
                 end in
        Parser d GENERATED (generated_lines p ++ [line])
  end.

(** [line = line.rstrip(newline)], then the body. *)
Definition parse_line (p : parser) (raw : string) : parser :=
  process_line p (Py.rstrip_by (Py.is_char Py.nl_char) raw).

(** [GitignoreFile.parse] of a [str], line 192 *)
Definition parse (file : string) : outcome GitignoreFile :=
  let p := fold_left parse_line (Py.readlines file)
                     (Parser (GitignoreFile_init []) USER []) in
  match state p with
  | GENERATED => Raise (GitignoreException "Generated section never closed")
  | USER => Return (gitignore p)
  end.


(* ===================================================================== *)
(** ** Notions and documents the properties are stated with *)
(* ===================================================================== *)

(** The entries a predicate does not hold of. *)
Definition miss {A} (hit : A -> bool) (x : A) : bool := negb (hit x).

Definition blank : GitignoreEntry := Entry BLANK "".

Definition count_path (path : string) (es : list GitignoreEntry) : nat :=
  List.length (filter (path_matches path) es).

Definition not_found (path : string) : exn :=
  ValueError (Py.quote ++ path ++ Py.quote ++ " not in GitignoreFile").

(** A document with the path [a] three times. *)
Definition three_a : GitignoreFile :=
  GitignoreFile_init
    [Entry PATH "a"; Entry COMMENT "a"; Entry PATH "a"; Entry PATH "b";
     Entry PATH "a"].

(** The comparison [find_comment] makes on a comment's value: leading [#]
    characters removed, then whitespace removed at both ends. *)
Definition comment_text (v : string) : string :=
  Py.strip (Py.lstrip_by (Py.is_char Py.hash_char) v).

(** The lookup as the specification words it: only leading [#] characters
    and leading whitespace are stripped before the comparison. *)
Definition find_comment_leading_only (t : string) (self : GitignoreFile)
  : option nat :=
  find_index
    (fun e => is_comment e
              && String.eqb (Py.lstrip (Py.lstrip_by (Py.is_char Py.hash_char)
                                                     (value e))) t)
    (entries self).

(** Two template providers: one answers, one reports an error status. *)
Definition provider_pyc (url : string) : http_result :=
  Response 200 ("*.pyc" ++ String Py.cr_char Py.nl).
Definition provider_down (url : string) : http_result :=
  Response 503 "Service Unavailable".

Definition user_doc : GitignoreFile :=
  File [Entry COMMENT "build"; Entry PATH "dist/"] "old" (Some "0123") None.

(** The lines the loop of [parse] works on: each line of the text, its
    newline stripped. *)
Definition lines (text : string) : list string :=
  map (Py.rstrip_by (Py.is_char Py.nl_char)) (Py.readlines text).

(** A text whose generated section is never closed, and one with no
    start guard. *)
Definition unterminated_text : string :=
  "foo" ++ Py.nl ++ "### START-GENERATED-CONTENT [HASH: abc]" ++ Py.nl
  ++ "bar" ++ Py.nl.
Definition user_only_text : string :=
  "# heading" ++ Py.nl ++ "  " ++ Py.nl ++ "build/" ++ Py.nl ++ "### END-GENERATED-CONTENT".

(** The two-section text, what it parses to and what sorting leaves. *)
Definition two_sections : string :=
  "# Section A" ++ Py.nl ++ "foo" ++ Py.nl ++ "bar" ++ Py.nl
  ++ "# Section B" ++ Py.nl ++ "baz" ++ Py.nl.

Definition two_sections_parsed : GitignoreFile :=
  GitignoreFile_init
    [Entry COMMENT "Section A"; Entry PATH "foo"; Entry PATH "bar";
     Entry COMMENT "Section B"; Entry PATH "baz"].

Definition two_sections_sorted : GitignoreFile :=
  GitignoreFile_init
    [Entry BLANK ""; Entry COMMENT "Section A"; Entry PATH "bar";
     Entry PATH "foo"; Entry BLANK ""; Entry COMMENT "Section B";
     Entry PATH "baz"].

(** Scanning the entries from the last one and skipping blanks: a comment
    is met first, and a path stands somewhere before it. *)
Fixpoint heading_at_end (reversed : list GitignoreEntry) : bool :=
  match reversed with
  | [] => false
  | e :: r =>
      if is_path e then false
      else if is_comment e then existsb is_path r
      else heading_at_end r
  end.

Definition trailing_heading (es : list GitignoreEntry) : bool :=
  heading_at_end (rev es).

Definition heading_after_path : GitignoreFile :=
  GitignoreFile_init [Entry COMMENT "b"; Entry PATH "x"; Entry COMMENT "a"].

(** An entry in the form [parse] produces: a comment value with no
    whitespace at its start, an empty blank, a path that is neither blank
    nor starts with [#]; no value holds a newline. *)
Definition canonical (e : GitignoreEntry) : bool :=
  match type e with
  | COMMENT =>
      negb (Py.contains_char Py.nl_char (value e))
      && String.eqb (Py.lstrip (value e)) (value e)
  | BLANK => String.eqb (value e) ""
  | PATH =>
      negb (Py.contains_char Py.nl_char (value e))
      && negb (Py.startswith "#" (value e))
      && negb (String.eqb (Py.strip (value e)) "")
  end.

(** The parameters hash the parser is left with after the lines of a
    generated section: that of the last line matching the marker. *)
Definition scan_parameters_hash (ls : list string) (init : option string)
  : option string :=
  fold_left (fun acc line => match PARAMETER_HASH_REGEX line with
                             | Some h => Some h
                             | None => acc
                             end) ls init.

(** Documents whose generated content hash was refreshed: one without
    entries, one with an indented comment, one after a full refresh. *)
Definition empty_refreshed : GitignoreFile :=
  snd (refresh_generated_content_hash (GitignoreFile_init [])).

Definition indented_comment : GitignoreFile :=
  snd (refresh_generated_content_hash (GitignoreFile_init [Entry COMMENT " x"])).

Definition refreshed_doc : GitignoreFile :=
  Eval vm_compute in
    snd (bind (refresh_generated_content provider_pyc ["Python"] ["/my/extra/path"])
              (fun _ => refresh_generated_content_hash) user_doc).

(* ===================================================================== *)
(** * Properties *)
(* ===================================================================== *)

(** ** The digest agrees with hashlib on known inputs *)

Example hash_content_empty :
  hash_content "" = "e3b0c44298fc1c149afbf4c8996fb92427ae41e4649b934ca495991b7852b855".
Proof. vm_compute. reflexivity. Qed.

Example hash_content_abc :
  hash_content "abc" = "ba7816bf8f01cfea414140de5dae2223b00361a396177a9cb410ff61f20015ad".
Proof. vm_compute. reflexivity. Qed.

(** ** Generic facts about [find_index] and the method monad *)

Section FindIndex.
Context {A : Type} (p : A -> bool).

Lemma find_index_Some (l : list A) (i : nat) :
  find_index p l = Some i <->
  (exists x, nth_error l i = Some x /\ p x = true) /\
  (forall j y, j < i -> nth_error l j = Some y -> p y = false).
Proof.
  revert i; induction l as [|x l IH]; intros i; simpl.
  - split; [discriminate|]. intros [[y [H _]] _]. destruct i; discriminate.
  - destruct (p x) eqn:Hx.
    + split.
      * intros [= <-]. split; [exists x; auto|]. intros j y Hj; lia.
      * intros [[y [Hy Hpy]] Hmin]. destruct i as [|i]; [reflexivity|].
        specialize (Hmin 0 x (Nat.lt_0_succ i) eq_refl). congruence.
    + split.
      * destruct (find_index p l) as [k|] eqn:Hk; simpl; [|discriminate].
        intros [= <-]. destruct (proj1 (IH k) eq_refl) as [Hex Hmin].
        split; [exact Hex|]. intros [|j] y Hj Hy; simpl in Hy.
        -- congruence.
        -- apply (Hmin j); [lia|exact Hy].
      * intros [[y [Hy Hpy]] Hmin]. destruct i as [|i]; simpl in Hy.
        -- congruence.
        -- assert (Hk : find_index p l = Some i).
           { apply IH. split; [exists y; auto|].
             intros j z Hj Hz. apply (Hmin (S j)); [lia|exact Hz]. }
           rewrite Hk. reflexivity.
Qed.

Lemma find_index_None (l : list A) :
  find_index p l = None <-> (forall x, In x l -> p x = false).
Proof.
  induction l as [|x l IH]; simpl.
  - split; [intros _ y []|reflexivity].
  - destruct (p x) eqn:Hx.
    + split; [discriminate|]. intros H. specialize (H x (or_introl eq_refl)).
      congruence.
    + destruct (find_index p l) as [k|]; simpl.
      * split; [discriminate|]. intros H.
        assert (Hc : Some k = None); [|discriminate].
        apply IH. intros y Hy. apply H. now right.
      * split; [|reflexivity]. intros _ y [<-|Hy]; [exact Hx|].
        now apply (proj1 IH eq_refl).
Qed.
End FindIndex.

(** ** Removing a path *)

Section FirstHit.
Context {A : Type} (hit : A -> bool).

Lemma filter_miss_no_hit (es : list A) :
  find_index hit es = None ->
  filter (miss hit) es = es /\ filter hit es = [].
Proof.
  intros H. pose proof (proj1 (find_index_None hit es) H) as Hall.
  clear H. induction es as [|e es IH]; simpl; [auto|].
  unfold miss at 1. rewrite (Hall e (or_introl eq_refl)). simpl.
  destruct IH as [IH1 IH2]; [intros x Hx; apply Hall; now right|].
  now rewrite IH1, IH2.
Qed.

Lemma filter_delete_first_hit (es : list A) (i : nat) :
  find_index hit es = Some i ->
  filter (miss hit) (delete_at i es) = filter (miss hit) es /\
  S (List.length (filter hit (delete_at i es))) = List.length (filter hit es).
Proof.
  revert i; induction es as [|e es IH]; simpl; intros i H; [discriminate|].
  unfold miss at 2. destruct (hit e) eqn:He; simpl.
  - injection H as <-. unfold delete_at; simpl. auto.
  - destruct (find_index hit es) as [j|]; simpl in H; [|discriminate].
    injection H as <-. destruct (IH j eq_refl) as [IH1 IH2].
    change (delete_at (S j) (e :: es)) with (e :: delete_at j es).
    cbn [filter]. unfold miss at 1. rewrite He; simpl. now rewrite IH1, IH2.
Qed.
End FirstHit.

Section RemovePath.
Variable path : string.

Lemma path_matches_iff (e : GitignoreEntry) :
  path_matches path e = true <-> type e = PATH /\ value e = path.
Proof.
  unfold path_matches, is_path. destruct e as [[] v]; simpl;
    rewrite ?String.eqb_eq; intuition congruence.
Qed.

(** The loop stops with the entries that do not match, in their order,
    and has counted the ones that do. *)
Lemma remove_loop_filter (es : list GitignoreEntry) (removed : nat) :
  remove_loop path es removed
  = (filter (miss (path_matches path)) es,
     removed + List.length (filter (path_matches path) es)).
Proof.
  funelim (remove_loop path es removed).
  - match goal with IH : remove_loop _ _ _ = (_, _) |- _ => rewrite IH end.
    destruct (filter_delete_first_hit _ es Hfind) as [-> <-].
    f_equal. lia.
  - match goal with Hn : find_index _ _ = None |- _ =>
      destruct (filter_miss_no_hit _ _ Hn) as [-> ->] end.
    simpl. now rewrite Nat.add_0_r.
Qed.

Lemma remove_path_run (d : GitignoreFile) :
  remove_path path d =
  if nonempty (filter (path_matches path) (entries d))
  then (Return tt, set_entries (filter (miss (path_matches path)) (entries d)) d)
  else (Raise (ValueError (Py.quote ++ path ++ Py.quote ++ " not in GitignoreFile")),
        set_entries (filter (miss (path_matches path)) (entries d)) d).
Proof.
  unfold remove_path, bind, gets, modify, raise, ret.
  rewrite remove_loop_filter. simpl.
  destruct (filter (path_matches path) (entries d)); reflexivity.
Qed.
End RemovePath.

Lemma filter_nonempty_In {A} (p : A -> bool) (l : list A) :
  nonempty (filter p l) = true <-> exists x, In x l /\ p x = true.
Proof.
  split.
  - destruct (filter p l) as [|x r] eqn:E; [discriminate|]. intros _.
    exists x. apply filter_In. rewrite E. now left.
  - intros [x Hx]. apply filter_In in Hx.
    destruct (filter p l); [destruct Hx|reflexivity].
Qed.

Lemma filter_nil_find_index {A} (p : A -> bool) (l : list A) :
  filter p l = [] -> find_index p l = None.
Proof.
  intros H. apply find_index_None. intros x Hx.
  destruct (p x) eqn:E; [|reflexivity].
  assert (Hin : In x (filter p l)) by (apply filter_In; auto).
  rewrite H in Hin. destruct Hin.
Qed.

Lemma filter_hit_miss {A} (p : A -> bool) (l : list A) :
  filter p (filter (miss p) l) = [].
Proof.
  induction l as [|x l IH]; simpl; [reflexivity|]. unfold miss at 1.
  destruct (p x) eqn:E; simpl; [exact IH|]. now rewrite E.
Qed.

(** C2: [remove_path(p)] on a document with at least one Path entry of value
    [p] deletes every such entry, keeps all other entries in their order and
    returns; with no such entry it raises the not-found error and leaves the
    entries as they were.  With three entries Path [p], none is left after
    the call and a second call raises the not-found error. *)
Theorem remove_path_deletes_every_match (d : GitignoreFile) (p : string) :
  (forall e, path_matches p e = true <-> type e = PATH /\ value e = p) /\
  ((exists e, In e (entries d) /\ type e = PATH /\ value e = p) ->
   remove_path p d
   = (Return tt,
      set_entries (filter (miss (path_matches p)) (entries d)) d)) /\
  ((forall e, In e (entries d) -> ~ (type e = PATH /\ value e = p)) ->
   remove_path p d = (Raise (not_found p), d)) /\
  (count_path p (entries d) = 3 ->
   exists d', remove_path p d = (Return tt, d') /\
              count_path p (entries d') = 0 /\
              remove_path p d' = (Raise (not_found p), d')).
Proof.
  split; [apply path_matches_iff|].
  assert (Hhit : (exists e, In e (entries d) /\ type e = PATH /\ value e = p) ->
                 nonempty (filter (path_matches p) (entries d)) = true).
  { intros [e [Hin He]]. apply filter_nonempty_In. exists e. split; [exact Hin|].
    now apply path_matches_iff. }
  assert (Hmiss : forall d0 : GitignoreFile,
            filter (path_matches p) (entries d0) = [] ->
            remove_path p d0 = (Raise (not_found p), d0)).
  { intros d0 H0. rewrite remove_path_run, H0. simpl.
    assert (Hk : filter (miss (path_matches p)) (entries d0)
                 = entries d0).
    { apply filter_miss_no_hit, filter_nil_find_index, H0. }
    rewrite Hk. destruct d0; reflexivity. }
  split; [|split].
  - intros H. rewrite remove_path_run, (Hhit H). reflexivity.
  - intros H. apply Hmiss.
    destruct (filter (path_matches p) (entries d)) as [|x r] eqn:E;
      [reflexivity|].
    assert (Hin : In x (filter (path_matches p) (entries d)))
      by (rewrite E; now left).
    apply filter_In in Hin. destruct Hin as [Hin Hx].
    exfalso. apply (H x Hin). now apply path_matches_iff.
  - intros H3.
    exists (set_entries (filter (miss (path_matches p)) (entries d)) d).
    assert (H0 : filter (path_matches p)
                   (filter (miss (path_matches p)) (entries d)) = [])
      by apply filter_hit_miss.
    split; [|split].
    + rewrite remove_path_run. unfold count_path in H3.
      destruct (filter (path_matches p) (entries d)); [discriminate|reflexivity].
    + unfold count_path. simpl. now rewrite H0.
    + apply Hmiss. exact H0.
Qed.

Lemma remove_path_deletes_every_match_witness :
  remove_path "a" three_a
  = (Return tt, GitignoreFile_init [Entry COMMENT "a"; Entry PATH "b"]) /\
  remove_path "c" three_a = (Raise (not_found "c"), three_a) /\
  exists d', remove_path "a" three_a = (Return tt, d') /\
             count_path "a" (entries d') = 0 /\
             remove_path "a" d' = (Raise (not_found "a"), d').
Proof.
  destruct (remove_path_deletes_every_match three_a "a") as (_ & Hdel & _ & H3).
  destruct (remove_path_deletes_every_match three_a "c") as (_ & _ & Hmiss & _).
  split; [|split].
  - rewrite Hdel; [reflexivity|].
    exists (Entry PATH "a"). simpl. auto.
  - apply Hmiss. simpl.
    intros e [<-|[<-|[<-|[<-|[<-|[]]]]]] [Ht Hv]; discriminate.
  - apply H3. reflexivity.
Defined.

(** ** Looking up a comment *)

Lemma comment_matches_iff (t : string) (e : GitignoreEntry) :
  comment_matches t e = true <-> type e = COMMENT /\ comment_text (value e) = t.
Proof.
  unfold comment_matches, comment_text, is_comment.
  destruct e as [[] v]; simpl; rewrite ?String.eqb_eq; intuition congruence.
Qed.

(** C8, as stated, fails: a comment with trailing whitespace is found under
    its text without that whitespace, which stripping at the front alone
    does not give. *)
Lemma find_comment_strips_trailing_whitespace :
  find_comment "foo" (GitignoreFile_init [Entry COMMENT "foo "]) = Some 0 /\
  find_comment_leading_only "foo" (GitignoreFile_init [Entry COMMENT "foo "])
  = None.
Proof. split; reflexivity. Qed.

(** C8 (amended): [find_comment(t)] returns the index of the first Comment
    entry whose value equals [t] after its leading [#] characters and then
    the whitespace at both of its ends are stripped, and none when there is
    no such entry. *)
Theorem find_comment_first_match (d : GitignoreFile) (t : string) :
  (forall i,
     find_comment t d = Some i <->
     (exists e, nth_error (entries d) i = Some e /\
                type e = COMMENT /\ comment_text (value e) = t) /\
     (forall j e', j < i -> nth_error (entries d) j = Some e' ->
                   ~ (type e' = COMMENT /\ comment_text (value e') = t))) /\
  (find_comment t d = None <->
   forall e, In e (entries d) ->
             ~ (type e = COMMENT /\ comment_text (value e) = t)).
Proof.
  unfold find_comment. split.
  - intros i. rewrite find_index_Some. split.
    + intros [[e [He Hm]] Hmin]. split.
      * exists e. split; [exact He|]. now apply comment_matches_iff.
      * intros j e' Hj He' Hc. apply comment_matches_iff in Hc.
        rewrite (Hmin j e' Hj He') in Hc. discriminate.
    + intros [[e [He Hm]] Hmin]. split.
      * exists e. split; [exact He|]. now apply comment_matches_iff.
      * intros j e' Hj He'.
        destruct (comment_matches t e') eqn:E; [|reflexivity].
        exfalso. apply (Hmin j e' Hj He'). now apply comment_matches_iff.
  - rewrite find_index_None. split.
    + intros H e He Hc. apply comment_matches_iff in Hc.
      rewrite (H e He) in Hc. discriminate.
    + intros H e He. destruct (comment_matches t e) eqn:E; [|reflexivity].
      exfalso. apply (H e He). now apply comment_matches_iff.
Qed.

Example find_comment_examples :
  find_comment "b"
    (GitignoreFile_init [Entry PATH "b"; Entry COMMENT "a"; Entry COMMENT "## b  ";
                         Entry COMMENT "b"]) = Some 2 /\
  find_comment "b" (GitignoreFile_init [Entry COMMENT " #b"]) = None /\
  find_comment "#b" (GitignoreFile_init [Entry COMMENT " #b"]) = Some 0.
Proof. repeat split. Qed.

Lemma find_comment_first_match_witness :
  find_comment "b"
    (GitignoreFile_init
       [Entry PATH "b"; Entry COMMENT "a"; Entry COMMENT "## b  "]) = Some 2.
Proof.
  apply (proj1 (find_comment_first_match _ "b")). split.
  - exists (Entry COMMENT "## b  "). repeat split.
  - intros [|[|j]] e' Hj He' [Ht Hv]; simpl in He'.
    + injection He' as <-. discriminate.
    + injection He' as <-. discriminate.
    + lia.
Defined.

(** ** Rendering *)

Lemma join3 (sep a b c : string) :
  Py.join sep [a; b; c] = a ++ sep ++ b ++ sep ++ c.
Proof. reflexivity. Qed.

Lemma append_assoc (a b c : string) : (a ++ b) ++ c = a ++ (b ++ c).
Proof. induction a as [|x a IH]; simpl; [reflexivity|now rewrite IH]. Qed.

Lemma append_nil_r (a : string) : a ++ "" = a.
Proof. induction a as [|x a IH]; simpl; [reflexivity|now rewrite IH]. Qed.

(** The text [render] builds, line by line. *)
Lemma render_text (d : GitignoreFile) :
  render d
  = GENERATED_GUARD_START_TEMPLATE (format_optional (generated_content_hash d))
    ++ Py.nl ++ generated_content d
    ++ Py.nl ++ GENERATED_GUARD_END
    ++ Py.nl ++ Py.join Py.nl (map entry_str (entries d)) ++ Py.nl.
Proof.
  unfold render. rewrite join3. now rewrite !append_assoc.
Qed.

(** C9: [render] of a document whose [generated_content_hash] is unset
    returns a text all the same: the start-guard line with the placeholder
    [None] where the hash goes, the generated content, the end-guard line
    and the user entries, each followed by a newline. *)
Theorem render_unset_hash (d : GitignoreFile) :
  generated_content_hash d = None ->
  render d
  = "### START-GENERATED-CONTENT [HASH: None]" ++ Py.nl
    ++ generated_content d ++ Py.nl
    ++ "### END-GENERATED-CONTENT" ++ Py.nl
    ++ Py.join Py.nl (map entry_str (entries d)) ++ Py.nl.
Proof.
  intros H. rewrite render_text, H. reflexivity.
Qed.

Lemma render_unset_hash_witness :
  render (File [Entry COMMENT "build"; Entry PATH "dist/"] "*.pyc" None None)
  = "### START-GENERATED-CONTENT [HASH: None]" ++ Py.nl
    ++ "*.pyc" ++ Py.nl
    ++ "### END-GENERATED-CONTENT" ++ Py.nl
    ++ "# build" ++ Py.nl ++ "dist/" ++ Py.nl.
Proof.
  exact (render_unset_hash
           (File [Entry COMMENT "build"; Entry PATH "dist/"] "*.pyc" None None)
           eq_refl).
Defined.

(** ** The parameters hash *)

Lemma option_string_eqb_refl (a : option string) : option_string_eqb a a = true.
Proof. destruct a; simpl; [apply String.eqb_refl|reflexivity]. Qed.

Lemma hash_parameters_join (t e t' e' : list string) :
  Py.join "," (t ++ e) = Py.join "," (t' ++ e') ->
  hash_parameters t e = hash_parameters t' e'.
Proof. unfold hash_parameters. now intros ->. Qed.

(** C10: distinct generation inputs can have one parameters hash: the hash
    is the digest of the comma-join of the tokens followed by the extra
    paths, so moving an element from one list to the other, or a comma
    inside a token, is not seen; [check_generation_parameters] then answers
    true for inputs other than those the stored hash was made from. *)
Theorem hash_parameters_not_injective :
  (hash_parameters ["a"; "b"] [] = hash_parameters ["a"] ["b"] /\
   (["a"; "b"], @nil string) <> (["a"], ["b"])) /\
  (hash_parameters ["a,b"] [] = hash_parameters ["a"; "b"] [] /\
   (["a,b"], @nil string) <> (["a"; "b"], [])) /\
  (forall t e t' e',
     Py.join "," (t ++ e) = Py.join "," (t' ++ e') ->
     hash_parameters t e = hash_parameters t' e') /\
  (forall d t e t' e',
     parameters_hash d = Some (hash_parameters t e) ->
     Py.join "," (t ++ e) = Py.join "," (t' ++ e') ->
     check_generation_parameters t' e' d = true).
Proof.
  split; [|split; [|split]].
  - split; [now apply hash_parameters_join|discriminate].
  - split; [now apply hash_parameters_join|discriminate].
  - exact hash_parameters_join.
  - intros d t e t' e' Hd Hj. unfold check_generation_parameters.
    rewrite Hd, (hash_parameters_join _ _ _ _ Hj). apply option_string_eqb_refl.
Qed.

Lemma hash_parameters_not_injective_witness :
  check_generation_parameters ["a"] ["b"]
    (File [] "" None (Some (hash_parameters ["a"; "b"] []))) = true.
Proof.
  apply (proj2 (proj2 (proj2 hash_parameters_not_injective))
           _ ["a"; "b"] [] ["a"] ["b"]); reflexivity.
Defined.

(** ** Refreshing the generated content *)

Section Refresh.
Variable httpx_get : string -> http_result.
Variables tokens extra_paths : list string.

Let url := GITIGNORE_API_URL ++ Py.join "," tokens.

Lemma refresh_run (d : GitignoreFile) :
  refresh_generated_content httpx_get tokens extra_paths d =
  match httpx_get url with
  | Failure msg => (Raise (TransportError msg), d)
  | Response status_code text =>
      if (status_code =? 200)%Z
      then (Return tt,
            File (entries d)
                 (assemble_generated_content
                    (hash_parameters tokens extra_paths)
                    (Py.remove_char Py.cr_char text) extra_paths)
                 (generated_content_hash d)
                 (Some (hash_parameters tokens extra_paths)))
      else (Raise (GitignoreException
                     ("Error status code returned from " ++ GITIGNORE_API_URL)),
            d)
  end.
Proof.
  unfold refresh_generated_content. fold url.
  destruct (httpx_get url) as [code text|msg]; [|reflexivity].
  destruct (code =? 200)%Z; reflexivity.
Qed.

Lemma refresh_success (d d' : GitignoreFile) :
  refresh_generated_content httpx_get tokens extra_paths d = (Return tt, d') ->
  parameters_hash d' = Some (hash_parameters tokens extra_paths).
Proof.
  rewrite refresh_run. destruct (httpx_get url) as [code text|msg];
    [|discriminate].
  destruct (code =? 200)%Z; [|discriminate]. now intros [= <-].
Qed.
End Refresh.

(** C7: [refresh_generated_content] never changes [entries] or
    [generated_content_hash].  When the provider answers with status 200 it
    returns, having replaced [generated_content] and [parameters_hash] only;
    when the provider answers with another status, or the request itself
    fails, it raises and the document is as it was. *)
Theorem refresh_generated_content_frame
    (httpx_get : string -> http_result) (tokens extra_paths : list string)
    (d : GitignoreFile) :
  let run := refresh_generated_content httpx_get tokens extra_paths d in
  let url := GITIGNORE_API_URL ++ Py.join "," tokens in
  (entries (snd run) = entries d /\
   generated_content_hash (snd run) = generated_content_hash d) /\
  (forall text,
     httpx_get url = Response 200 text ->
     run = (Return tt,
            File (entries d)
                 (assemble_generated_content
                    (hash_parameters tokens extra_paths)
                    (Py.remove_char Py.cr_char text) extra_paths)
                 (generated_content_hash d)
                 (Some (hash_parameters tokens extra_paths)))) /\
  (forall status_code text,
     httpx_get url = Response status_code text -> status_code <> 200%Z ->
     run = (Raise (GitignoreException
                     ("Error status code returned from " ++ GITIGNORE_API_URL)),
            d)) /\
  (forall msg,
     httpx_get url = Failure msg -> run = (Raise (TransportError msg), d)).
Proof.
  cbv zeta. rewrite refresh_run.
  destruct (httpx_get (GITIGNORE_API_URL ++ Py.join "," tokens))
    as [code text|msg] eqn:E.
  - destruct (Z.eqb_spec code 200) as [->|Hne].
    + repeat split; try discriminate.
      * intros text' [= <-]. reflexivity.
      * intros c t [= <- <-] Hc. now destruct Hc.
    + repeat split; try discriminate.
      * intros text' [= -> <-]. now destruct Hne.
  - repeat split; try discriminate. now intros msg' [= <-].
Qed.

Lemma refresh_generated_content_frame_witness :
  refresh_generated_content provider_pyc ["Python"] ["/my/extra/path"] user_doc
  = (Return tt,
     File [Entry COMMENT "build"; Entry PATH "dist/"]
          (assemble_generated_content
             (hash_parameters ["Python"] ["/my/extra/path"])
             ("*.pyc" ++ Py.nl) ["/my/extra/path"])
          (Some "0123")
          (Some (hash_parameters ["Python"] ["/my/extra/path"]))) /\
  refresh_generated_content provider_down ["Python"] ["/my/extra/path"] user_doc
  = (Raise (GitignoreException
              ("Error status code returned from " ++ GITIGNORE_API_URL)),
     user_doc).
Proof.
  split.
  - apply (proj1 (proj2 (refresh_generated_content_frame
                           provider_pyc ["Python"] ["/my/extra/path"] user_doc))
             ("*.pyc" ++ String Py.cr_char Py.nl)).
    reflexivity.
  - apply (proj1 (proj2 (proj2 (refresh_generated_content_frame
                           provider_down ["Python"] ["/my/extra/path"] user_doc)))
             503%Z "Service Unavailable"); [reflexivity|discriminate].
Defined.

(** C4, as stated, fails: after a refresh with tokens [a], [b] and no extra
    path, the check answers true for the token [a] with the extra path [b],
    although both arguments differ from those of the refresh. *)
Lemma check_generation_parameters_other_inputs :
  fst (refresh_generated_content provider_pyc ["a"; "b"] [] user_doc) = Return tt /\
  check_generation_parameters ["a"] ["b"]
    (snd (refresh_generated_content provider_pyc ["a"; "b"] [] user_doc)) = true /\
  ["a"] <> ["a"; "b"] /\ ["b"] <> @nil string.
Proof.
  rewrite refresh_run. cbn [provider_pyc Z.eqb Pos.eqb fst snd].
  split; [reflexivity|]. split; [|split; discriminate].
  unfold check_generation_parameters. cbn [parameters_hash option_string_eqb].
  rewrite (hash_parameters_join ["a"] ["b"] ["a"; "b"] [] eq_refl).
  apply String.eqb_refl.
Qed.

(** C4 (amended): immediately after a successful [refresh(tokens,
    extraPaths)], [check_generation_parameters(tokens, extraPaths)] is true;
    for any other pair the check is true exactly when the parameters hash of
    that pair equals the one of the refresh, which is the case whenever the
    comma-join of its tokens followed by its extra paths is the same. *)
Theorem check_generation_parameters_after_refresh
    (httpx_get : string -> http_result) (tokens extra_paths : list string)
    (d d' : GitignoreFile) :
  refresh_generated_content httpx_get tokens extra_paths d = (Return tt, d') ->
  check_generation_parameters tokens extra_paths d' = true /\
  (forall tokens' extra_paths',
     check_generation_parameters tokens' extra_paths' d' = true <->
     hash_parameters tokens' extra_paths' = hash_parameters tokens extra_paths) /\
  (forall tokens' extra_paths',
     Py.join "," (tokens' ++ extra_paths') = Py.join "," (tokens ++ extra_paths) ->
     check_generation_parameters tokens' extra_paths' d' = true).
Proof.
  intros H. apply refresh_success in H.
  assert (Hiff : forall t e, check_generation_parameters t e d' = true <->
                             hash_parameters t e = hash_parameters tokens extra_paths).
  { intros t e. unfold check_generation_parameters. rewrite H. simpl.
    rewrite String.eqb_eq. split; congruence. }
  split; [now apply Hiff|]. split; [exact Hiff|].
  intros t e Hj. apply Hiff. now apply hash_parameters_join.
Qed.

Lemma check_generation_parameters_after_refresh_witness :
  check_generation_parameters ["Python"] ["/my/extra/path"]
    (snd (refresh_generated_content provider_pyc ["Python"] ["/my/extra/path"]
            user_doc)) = true.
Proof.
  refine (proj1 (check_generation_parameters_after_refresh
                   provider_pyc ["Python"] ["/my/extra/path"] user_doc _)).
  rewrite refresh_run. reflexivity.
Defined.

(** ** Parsing *)

Definition parser_init : parser := Parser (GitignoreFile_init []) USER [].

Definition finish (p : parser) : outcome GitignoreFile :=
  match state p with
  | GENERATED => Raise (GitignoreException "Generated section never closed")
  | USER => Return (gitignore p)
  end.

Lemma fold_left_map {A B C} (f : A -> B -> A) (g : C -> B) (l : list C) (a : A) :
  fold_left (fun x y => f x (g y)) l a = fold_left f (map g l) a.
Proof. revert a; induction l as [|x l IH]; simpl; intros a; auto. Qed.

Lemma parse_lines (text : string) :
  parse text = finish (fold_left process_line (lines text) parser_init).
Proof.
  unfold parse, finish, lines, parser_init.
  now rewrite <- (fold_left_map process_line).
Qed.

Lemma process_user_lines (ls : list string) (d : GitignoreFile) (acc : list string) :
  (forall s, In s ls -> GENERATED_GUARD_START_REGEX s = None) ->
  fold_left process_line ls (Parser d USER acc)
  = Parser (set_entries (entries d ++ map user_entry ls) d) USER acc.
Proof.
  revert d; induction ls as [|s ls IH]; intros d H; simpl.
  - rewrite app_nil_r. now destruct d.
  - unfold process_line at 2. simpl. rewrite (H s (or_introl eq_refl)).
    rewrite IH by (intros x Hx; apply H; now right).
    unfold append_entry, set_entries. simpl. now rewrite <- app_assoc.
Qed.

Lemma process_unclosed (ls : list string) (p : parser) :
  state p = GENERATED -> ~ In GENERATED_GUARD_END ls ->
  state (fold_left process_line ls p) = GENERATED.
Proof.
  revert p; induction ls as [|s ls IH]; intros p Hp Hno; simpl; [exact Hp|].
  apply IH; [|intros Hin; apply Hno; now right].
  unfold process_line. rewrite Hp.
  destruct (String.eqb_spec s GENERATED_GUARD_END) as [->|_]; [|reflexivity].
  exfalso. apply Hno. now left.
Qed.

Lemma start_guard_opens (p : parser) (s h : string) :
  GENERATED_GUARD_START_REGEX s = Some h ->
  state (process_line p s) = GENERATED.
Proof.
  intros H. unfold process_line. destruct (state p).
  - now rewrite H.
  - destruct (String.eqb_spec s GENERATED_GUARD_END) as [->|_]; [|reflexivity].
    vm_compute in H. discriminate.
Qed.

(** C3: when a line of the input matches the start guard and no later line
    is the end guard, [parse] raises the exception [Generated section never
    closed]; when no line matches the start guard, [parse] returns a
    document whose entries are the lines of the whole input, with an empty
    generated content and both hashes unset. *)
Theorem parse_guard_outcomes (text : string) :
  (forall before s after h,
     lines text = (before ++ s :: after)%list ->
     GENERATED_GUARD_START_REGEX s = Some h ->
     ~ In GENERATED_GUARD_END after ->
     parse text = Raise (GitignoreException "Generated section never closed")) /\
  ((forall s, In s (lines text) -> GENERATED_GUARD_START_REGEX s = None) ->
   parse text = Return (File (map user_entry (lines text)) "" None None)).
Proof.
  rewrite parse_lines. split.
  - intros before s after h Hl Hs Hno. rewrite Hl, fold_left_app. simpl.
    unfold finish. rewrite process_unclosed; [reflexivity| |exact Hno].
    now apply start_guard_opens with h.
  - intros H. unfold parser_init. now rewrite process_user_lines.
Qed.

Lemma parse_guard_outcomes_witness :
  parse unterminated_text
  = Raise (GitignoreException "Generated section never closed") /\
  parse user_only_text
  = Return (File [Entry COMMENT "heading"; Entry BLANK ""; Entry PATH "build/";
                  Entry COMMENT "## END-GENERATED-CONTENT"] "" None None).
Proof.
  split.
  - apply (proj1 (parse_guard_outcomes unterminated_text)
             ["foo"] "### START-GENERATED-CONTENT [HASH: abc]" ["bar"] "abc").
    + reflexivity.
    + reflexivity.
    + simpl. intros [H|[]]. discriminate.
  - apply (proj2 (parse_guard_outcomes user_only_text)).
    simpl. intros s [<-|[<-|[<-|[<-|[]]]]]; reflexivity.
Defined.

(** ** The two-section scenario *)

(** C6: parsing the two-section text and sorting with the default flags
    gives the groups [Section A] with paths [bar], [foo] and [Section B]
    with path [baz], in this order, each path list sorted without regard to
    case, one blank entry between the groups and none at the end. *)
Theorem parse_then_sort_two_sections :
  parse two_sections = Return two_sections_parsed /\
  sort_gitignore true false two_sections_parsed = (Return tt, two_sections_sorted) /\
  collect_groups (entries two_sections_sorted)
  = [Group.Make ["Section A"] ["bar"; "foo"]; Group.Make ["Section B"] ["baz"]] /\
  Py.join Py.nl (map entry_str (entries two_sections_sorted))
  = "" ++ Py.nl ++ "# Section A" ++ Py.nl ++ "bar" ++ Py.nl ++ "foo" ++ Py.nl
    ++ "" ++ Py.nl ++ "# Section B" ++ Py.nl ++ "baz".
Proof. repeat split. Qed.

(** ** Sorting: the entries [sort_gitignore] leaves *)

Definition append_entries (es : list GitignoreEntry) (d : GitignoreFile)
  : GitignoreFile :=
  set_entries (entries d ++ es) d.

Lemma list_insert_end {A} (x : A) (l : list A) :
  Py.list_insert (Z.of_nat (List.length l)) x l = (l ++ [x])%list.
Proof.
  unfold Py.list_insert.
  destruct (Z.ltb_spec (Z.of_nat (List.length l)) 0) as [H|_]; [lia|].
  rewrite Z.min_id, Nat2Z.id, firstn_all, skipn_all. reflexivity.
Qed.

Lemma insert_entry_end (e : GitignoreEntry) (d : GitignoreFile) :
  insert_entry None e d = (Return tt, append_entries [e] d).
Proof.
  unfold insert_entry, modify, append_entries. now rewrite list_insert_end.
Qed.

Lemma append_entries_app (es es' : list GitignoreEntry) (d : GitignoreFile) :
  append_entries es' (append_entries es d) = append_entries (es ++ es') d.
Proof.
  unfold append_entries, set_entries. simpl. now rewrite app_assoc.
Qed.

Lemma append_entries_nil (d : GitignoreFile) : append_entries [] d = d.
Proof.
  unfold append_entries, set_entries. rewrite app_nil_r. now destruct d.
Qed.

Lemma for_each_append {A} (mk : A -> GitignoreEntry) (l : list A)
    (d : GitignoreFile) :
  for_each l (fun x => insert_entry None (mk x)) d
  = (Return tt, append_entries (map mk l) d).
Proof.
  revert d; induction l as [|x l IH]; intros d; simpl.
  - unfold ret. now rewrite append_entries_nil.
  - unfold bind. rewrite insert_entry_end, IH, append_entries_app. reflexivity.
Qed.

(** The paths of a group as the rebuild emits them, line 180. *)
Definition sort_group (sort_paths : bool) (g : Group.t) : Group.t :=
  Group.Make (Group.comments g)
             (if sort_paths then Py.sort Py.lower (Group.paths g)
              else Group.paths g).

(** The entries one group is rebuilt into, lines 182-186. *)
Definition group_entries (g : Group.t) : list GitignoreEntry :=
  (map (Entry COMMENT) (Group.comments g)
   ++ map (Entry PATH) (Group.paths g) ++ [blank])%list.

Definition emit (gs : list Group.t) : list GitignoreEntry :=
  blank :: List.concat (map group_entries gs).

Definition order_groups (sort_groups : bool) (gs : list Group.t) : list Group.t :=
  if sort_groups then Py.sort group_key gs else gs.

Definition sorted_entries (sort_paths sort_groups : bool)
    (es : list GitignoreEntry) : list GitignoreEntry :=
  removelast
    (emit (map (sort_group sort_paths)
               (order_groups sort_groups (collect_groups es)))).

Lemma rebuild_groups (sort_paths : bool) (gs : list Group.t) (d : GitignoreFile) :
  for_each gs (fun group =>
    let group_paths := if sort_paths then Py.sort Py.lower (Group.paths group)
                       else Group.paths group in
    for_each (Group.comments group) (fun comment => add_comment comment None) ;;
    for_each group_paths (fun path => add_path path None) ;;
    add_blank None) d
  = (Return tt,
     append_entries (List.concat (map group_entries (map (sort_group sort_paths) gs))) d).
Proof.
  revert d; induction gs as [|g gs IH]; intros d; simpl.
  - unfold ret. now rewrite append_entries_nil.
  - unfold bind at 1 2 3. unfold add_comment, add_path, add_blank.
    rewrite (for_each_append (Entry COMMENT)).
    rewrite (for_each_append (Entry PATH)).
    rewrite insert_entry_end, IH, !append_entries_app.
    unfold group_entries at 2. simpl. now rewrite <- !app_assoc.
Qed.

Lemma groups_end_blank (g : Group.t) (gs : list Group.t) :
  exists body,
    List.concat (map group_entries (g :: gs)) = (body ++ [blank])%list.
Proof.
  revert g; induction gs as [|g' gs IH]; intros g.
  - exists (map (Entry COMMENT) (Group.comments g)
            ++ map (Entry PATH) (Group.paths g))%list.
    simpl. rewrite app_nil_r. unfold group_entries. now rewrite <- app_assoc.
  - destruct (IH g') as [body Hb].
    exists (group_entries g ++ body)%list.
    change (List.concat (map group_entries (g :: g' :: gs)))
      with (group_entries g ++ List.concat (map group_entries (g' :: gs)))%list.
    now rewrite Hb, app_assoc.
Qed.

Lemma emit_ends_blank (gs : list Group.t) :
  exists body, emit gs = (body ++ [blank])%list.
Proof.
  unfold emit. destruct gs as [|g gs].
  - now exists [].
  - destruct (groups_end_blank g gs) as [body ->]. now exists (blank :: body).
Qed.

(** [sort_gitignore] always returns, and replaces the entries by
    [sorted_entries]. *)
Lemma sort_gitignore_run (sort_paths sort_groups : bool) (d : GitignoreFile) :
  sort_gitignore sort_paths sort_groups d
  = (Return tt,
     set_entries (sorted_entries sort_paths sort_groups (entries d)) d).
Proof.
  unfold sort_gitignore. unfold bind at 1, gets at 1.
  fold (order_groups sort_groups (collect_groups (entries d))).
  unfold bind at 1, modify at 1. unfold bind at 1, add_blank.
  rewrite insert_entry_end. unfold bind at 1. rewrite rebuild_groups.
  set (gs := map (sort_group sort_paths)
                 (order_groups sort_groups (collect_groups (entries d)))).
  unfold bind, gets. cbn [append_entries set_entries entries app].
  change (Entry BLANK "" :: List.concat (map group_entries gs)) with (emit gs).
  unfold sorted_entries. fold gs.
  destruct (emit_ends_blank gs) as [body ->].
  rewrite last_last, removelast_last.
  destruct body; reflexivity.
Qed.

(** ** The stable sort *)

Lemma ltb_asym (a b : string) : String.ltb a b = true -> String.ltb b a = false.
Proof.
  unfold String.ltb. rewrite (String.compare_antisym b a).
  destruct (String.compare a b); simpl; congruence.
Qed.

Lemma ltb_empty (a : string) : String.ltb a "" = false.
Proof. destruct a; reflexivity. Qed.

Section SortFacts.
Context {A : Type} (key : A -> string).

(** No element is followed by one with a smaller key. *)
Fixpoint ordered (l : list A) : Prop :=
  match l with
  | x :: (y :: _) as l' => String.ltb (key y) (key x) = false /\ ordered l'
  | _ => True
  end.

Lemma insert_ordered (x : A) (l : list A) :
  ordered l -> ordered (Py.insert key x l).
Proof.
  induction l as [|y l IH]; simpl; [auto|]. intros Hl.
  destruct (String.ltb (key y) (key x)) eqn:E.
  - assert (Hi : ordered (Py.insert key x l)).
    { apply IH. destruct l; [exact I|apply Hl]. }
    destruct l as [|z l]; simpl in *.
    + split; [now apply ltb_asym|exact I].
    + destruct (String.ltb (key z) (key x)).
      * split; [apply Hl|exact Hi].
      * split; [now apply ltb_asym|exact Hi].
  - simpl. split; [exact E|exact Hl].
Qed.

Lemma sort_ordered (l : list A) : ordered (Py.sort key l).
Proof.
  induction l as [|x l IH]; simpl; [exact I|now apply insert_ordered].
Qed.

Lemma sort_of_ordered (l : list A) : ordered l -> Py.sort key l = l.
Proof.
  induction l as [|x l IH]; [reflexivity|]. intros Hl.
  cbn [Py.sort]. rewrite IH by (destruct l; [exact I|apply Hl]).
  destruct l as [|y l]; [reflexivity|]. simpl.
  destruct Hl as [-> _]. reflexivity.
Qed.

(** Sorting what is sorted changes nothing. *)
Lemma sort_idempotent (l : list A) :
  Py.sort key (Py.sort key l) = Py.sort key l.
Proof. apply sort_of_ordered, sort_ordered. Qed.

Lemma insert_Forall (P : A -> Prop) (x : A) (l : list A) :
  P x -> Forall P l -> Forall P (Py.insert key x l).
Proof.
  intros Hx Hl. induction Hl as [|y l Hy Hl IH]; simpl; [auto|].
  destruct (String.ltb (key y) (key x)); auto.
Qed.

Lemma sort_Forall (P : A -> Prop) (l : list A) :
  Forall P l -> Forall P (Py.sort key l).
Proof.
  induction 1 as [|x l Hx Hl IH]; simpl; [constructor|].
  now apply insert_Forall.
Qed.

Lemma insert_nonempty (x : A) (l : list A) : Py.insert key x l <> [].
Proof. destruct l; simpl; [|destruct (String.ltb _ _)]; discriminate. Qed.

Lemma sort_nonempty (l : list A) : l <> [] -> Py.sort key l <> [].
Proof. destruct l; [congruence|]. intros _. apply insert_nonempty. Qed.

Lemma sort_least_first (x : A) (l : list A) :
  key x = "" -> Py.sort key (x :: l) = x :: Py.sort key l.
Proof.
  intros Hx. simpl. destruct (Py.sort key l) as [|y r]; [reflexivity|].
  simpl. now rewrite Hx, ltb_empty.
Qed.

Lemma ordered_map (f : A -> A) (l : list A) :
  (forall x, key (f x) = key x) -> ordered l -> ordered (map f l).
Proof.
  intros Hf. induction l as [|x l IH]; [auto|].
  destruct l as [|y l]; [simpl; auto|].
  intros [H1 H2].
  change (String.ltb (key (f y)) (key (f x)) = false
          /\ ordered (map f (y :: l))).
  rewrite !Hf. split; [exact H1|]. apply IH, H2.
Qed.
End SortFacts.

Lemma sort_group_idempotent (sp : bool) (g : Group.t) :
  sort_group sp (sort_group sp g) = sort_group sp g.
Proof.
  unfold sort_group. destruct sp; simpl; [|reflexivity].
  now rewrite sort_idempotent.
Qed.

Lemma sort_group_key (sp : bool) (g : Group.t) :
  group_key (sort_group sp g) = group_key g.
Proof. reflexivity. Qed.

(** ** Grouping *)

Local Open Scope list_scope.

Lemma update_last_snoc {A} (f : A -> A) (l : list A) (x : A) :
  update_last f (l ++ [x]) = (l ++ [f x])%list.
Proof.
  induction l as [|y l IH]; [reflexivity|].
  change ((y :: l) ++ [x])%list with (y :: (l ++ [x]))%list.
  cbn [update_last]. rewrite IH.
  destruct (l ++ [x])%list eqn:E; [|reflexivity].
  destruct l; discriminate.
Qed.

Section GroupStep.
Variables (acc : list Group.t) (g : Group.t).

Lemma step_blank (gs : list Group.t) : group_step gs blank = gs.
Proof. reflexivity. Qed.

Lemma step_path (v : string) :
  group_step (acc ++ [g]) (Entry PATH v)
  = (acc ++ [Group.Make (Group.comments g) (Group.paths g ++ [v])])%list.
Proof. unfold group_step. simpl. now rewrite update_last_snoc. Qed.

Lemma step_comment_open (v : string) :
  Group.paths g <> [] ->
  group_step (acc ++ [g]) (Entry COMMENT v)
  = (acc ++ [g; Group.Make [v] []])%list.
Proof.
  intros H. unfold group_step. simpl. rewrite last_last.
  destruct (Group.paths g); [congruence|]. simpl.
  now rewrite <- app_assoc.
Qed.

Lemma step_comment_add (v : string) :
  Group.paths g = [] ->
  group_step (acc ++ [g]) (Entry COMMENT v)
  = (acc ++ [Group.Make (Group.comments g ++ [v]) []])%list.
Proof.
  intros H. unfold group_step. simpl. rewrite last_last, H. simpl.
  now rewrite update_last_snoc, H.
Qed.
End GroupStep.

Lemma fold_paths (ps : list string) (acc : list Group.t) (g : Group.t) :
  fold_left group_step (map (Entry PATH) ps) (acc ++ [g])
  = (acc ++ [Group.Make (Group.comments g) (Group.paths g ++ ps)])%list.
Proof.
  revert g; induction ps as [|p ps IH]; intros g; simpl.
  - rewrite app_nil_r. now destruct g.
  - rewrite step_path, IH. simpl. now rewrite <- app_assoc.
Qed.

Lemma fold_comments (cs : list string) (acc : list Group.t) (g : Group.t) :
  Group.paths g = [] ->
  fold_left group_step (map (Entry COMMENT) cs) (acc ++ [g])
  = (acc ++ [Group.Make (Group.comments g ++ cs) []])%list.
Proof.
  revert g; induction cs as [|c cs IH]; intros g Hg; simpl.
  - rewrite app_nil_r. destruct g; simpl in *. now subst.
  - rewrite step_comment_add by exact Hg. rewrite IH by reflexivity.
    simpl. now rewrite <- app_assoc.
Qed.

(** A group emitted after a group without paths continues it. *)
Lemma fold_group_continue (acc : list Group.t) (g0 g : Group.t) :
  Group.paths g0 = [] ->
  fold_left group_step (group_entries g) (acc ++ [g0])
  = (acc ++ [Group.Make (Group.comments g0 ++ Group.comments g)
                        (Group.paths g)])%list.
Proof.
  intros H0. unfold group_entries. rewrite !fold_left_app.
  rewrite fold_comments by exact H0. rewrite fold_paths. reflexivity.
Qed.

(** A group with a comment, emitted after a group with paths, is read back
    as it is. *)
Lemma fold_group_open (acc : list Group.t) (g0 g : Group.t) :
  Group.paths g0 <> [] -> Group.comments g <> [] ->
  fold_left group_step (group_entries g) (acc ++ [g0])
  = (acc ++ [g0; g])%list.
Proof.
  intros H0 Hc. unfold group_entries. rewrite !fold_left_app.
  destruct (Group.comments g) as [|c cs] eqn:E; [congruence|].
  cbn [map fold_left]. rewrite step_comment_open by exact H0.
  change (acc ++ [g0; Group.Make [c] []])%list
    with (acc ++ [g0] ++ [Group.Make [c] []])%list.
  rewrite app_assoc, fold_comments by reflexivity.
  rewrite fold_paths. cbn [Group.comments Group.paths app fold_left].
  rewrite step_blank, <- app_assoc. simpl.
  destruct g as [gc gp]. simpl in E. now subst.
Qed.

(** Every group but the last has a path and every group but the first has
    a comment. *)
Fixpoint chained (gs : list Group.t) : Prop :=
  match gs with
  | g :: (g' :: _) as rest =>
      Group.paths g <> [] /\ Group.comments g' <> [] /\ chained rest
  | _ => True
  end.

Lemma collect_chain (gs : list Group.t) (acc : list Group.t) (g0 : Group.t) :
  chained (g0 :: gs) ->
  fold_left group_step (List.concat (map group_entries gs)) (acc ++ [g0])
  = (acc ++ g0 :: gs)%list.
Proof.
  revert acc g0; induction gs as [|g gs IH]; intros acc g0 H; [reflexivity|].
  destruct H as (Hp & Hc & Hrest).
  cbn [map List.concat]. rewrite fold_left_app, fold_group_open by assumption.
  change (acc ++ [g0; g])%list with (acc ++ [g0] ++ [g])%list.
  rewrite app_assoc, IH by exact Hrest. now rewrite <- app_assoc.
Qed.

(** Grouping the entries emitted for a chain of groups gives the groups
    back. *)
Lemma collect_emit (g : Group.t) (gs : list Group.t) :
  chained (g :: gs) -> collect_groups (emit (g :: gs)) = g :: gs.
Proof.
  intros H. unfold collect_groups, emit.
  cbn [fold_left map List.concat]. rewrite step_blank, fold_left_app.
  change [empty_group] with ([] ++ [empty_group]).
  rewrite (fold_group_continue [] empty_group g eq_refl).
  cbn [app empty_group Group.comments].
  replace (Group.Make (Group.comments g) (Group.paths g)) with g
    by now destruct g.
  exact (collect_chain gs [] g H).
Qed.

Lemma collect_removelast_emit (gs : list Group.t) :
  collect_groups (removelast (emit gs)) = collect_groups (emit gs).
Proof.
  destruct (emit_ends_blank gs) as [body ->]. rewrite removelast_last.
  unfold collect_groups. now rewrite fold_left_app.
Qed.

Definition has_paths (g : Group.t) : Prop := Group.paths g <> [].
Definition has_comments (g : Group.t) : Prop := Group.comments g <> [].

Lemma chained_snoc_update (acc : list Group.t) (g g2 : Group.t) :
  chained (acc ++ [g]) -> (has_comments g -> has_comments g2) ->
  chained (acc ++ [g2]).
Proof.
  intros H Hc. induction acc as [|a acc IH]; [exact I|].
  destruct acc as [|b acc].
  - destruct H as (Ha & Hg & _). repeat split; auto. now apply Hc.
  - destruct H as (Ha & Hb & Hrest). repeat split; auto.
Qed.

Lemma chained_snoc_open (acc : list Group.t) (g g' : Group.t) :
  chained (acc ++ [g]) -> has_paths g -> has_comments g' ->
  chained (acc ++ [g; g']).
Proof.
  intros H Hp Hc. induction acc as [|a acc IH]; [repeat split; auto|].
  destruct acc as [|b acc].
  - destruct H as (Ha & Hg & _). repeat split; auto.
  - destruct H as (Ha & Hb & Hrest). repeat split; auto.
Qed.

Lemma chained_init_paths (acc : list Group.t) (g : Group.t) :
  chained (acc ++ [g]) -> Forall has_paths acc.
Proof.
  induction acc as [|a acc IH]; intros H; [constructor|].
  destruct acc as [|b acc].
  - destruct H as (Ha & _). repeat constructor. exact Ha.
  - destruct H as (Ha & _ & Hrest). constructor; [exact Ha|now apply IH].
Qed.

Lemma chained_tail_comments (g : Group.t) (gs : list Group.t) :
  chained (g :: gs) -> Forall has_comments gs.
Proof.
  revert g; induction gs as [|g' gs IH]; intros g H; [constructor|].
  destruct H as (_ & Hc & Hrest). constructor; [exact Hc|now apply IH with g'].
Qed.

Lemma chained_of_Forall (g : Group.t) (gs : list Group.t) :
  Forall has_paths (g :: gs) -> Forall has_comments gs -> chained (g :: gs).
Proof.
  revert g; induction gs as [|g' gs IH]; intros g Hp Hc; [exact I|].
  inversion Hp as [|? ? Hg Hp']; subst. inversion Hc as [|? ? Hg' Hc']; subst.
  repeat split; auto.
Qed.

Lemma chained_map (f : Group.t -> Group.t) (gs : list Group.t) :
  (forall g, has_paths g -> has_paths (f g)) ->
  (forall g, has_comments g -> has_comments (f g)) ->
  chained gs -> chained (map f gs).
Proof.
  intros Hp Hc. induction gs as [|g gs IH]; [auto|].
  destruct gs as [|g' gs]; [simpl; auto|].
  intros (H1 & H2 & H3).
  change (has_paths (f g) /\ has_comments (f g') /\ chained (map f (g' :: gs))).
  auto.
Qed.

Lemma group_step_chained (gs : list Group.t) (e : GitignoreEntry) :
  gs <> [] -> chained gs ->
  group_step gs e <> [] /\ chained (group_step gs e).
Proof.
  intros Hne Hch. destruct (exists_last Hne) as (acc & g & ->).
  destruct e as [[] v].
  - destruct (Group.paths g) as [|p ps] eqn:E.
    + rewrite step_comment_add by exact E.
      split; [now destruct acc|].
      apply chained_snoc_update with g; [exact Hch|].
      intros _. unfold has_comments. simpl. now destruct (Group.comments g).
    + rewrite step_comment_open by (rewrite E; discriminate).
      split; [now destruct acc|].
      apply chained_snoc_open; [exact Hch| |discriminate].
      unfold has_paths. rewrite E. discriminate.
  - split; [now destruct acc|exact Hch].
  - rewrite step_path. split; [now destruct acc|].
    apply chained_snoc_update with g; [exact Hch|auto].
Qed.

Lemma fold_step_chained (es : list GitignoreEntry) (gs : list Group.t) :
  gs <> [] -> chained gs ->
  fold_left group_step es gs <> [] /\ chained (fold_left group_step es gs).
Proof.
  revert gs; induction es as [|e es IH]; intros gs Hne Hch; [auto|].
  simpl. destruct (group_step_chained e Hne Hch). now apply IH.
Qed.

(** The groups read from any entries form a chain. *)
Lemma collect_chained (es : list GitignoreEntry) :
  collect_groups es <> [] /\ chained (collect_groups es).
Proof. apply fold_step_chained; [discriminate|exact I]. Qed.

Lemma collect_snoc (es : list GitignoreEntry) (e : GitignoreEntry) :
  collect_groups (es ++ [e]) = group_step (collect_groups es) e.
Proof. unfold collect_groups. now rewrite fold_left_app. Qed.

Lemma collect_last_group (es : list GitignoreEntry) :
  (existsb is_path es = false ->
   exists g, collect_groups es = [g] /\ Group.paths g = []) /\
  (Group.paths (last (collect_groups es) empty_group) = [] ->
   (exists g, collect_groups es = [g]) \/ trailing_heading es = true).
Proof.
  induction es as [|e es [IH1 IH2]] using rev_ind.
  - split; [now exists empty_group|left; now exists empty_group].
  - rewrite collect_snoc.
    destruct (collect_chained es) as [Hne _].
    destruct (exists_last Hne) as (acc & g & Hgs).
    rewrite existsb_app. unfold trailing_heading. rewrite rev_unit.
    cbn [existsb heading_at_end]. rewrite orb_false_r.
    assert (Hrev : existsb is_path (rev es) = existsb is_path es).
    { clear. induction es as [|x l IHl]; [reflexivity|]. simpl.
      rewrite existsb_app, IHl. simpl. now rewrite orb_false_r, orb_comm. }
    rewrite Hrev.
    destruct e as [[] v]; cbn [is_path is_comment type].
    + (* a comment *)
      split.
      * rewrite orb_false_r. intros H. destruct (IH1 H) as (g1 & Hg1 & Hp).
        rewrite Hg1. change [g1] with ([] ++ [g1]).
        rewrite step_comment_add by exact Hp. now eexists.
      * intros _. destruct (existsb is_path es) eqn:E; [now right|left].
        destruct (IH1 eq_refl) as (g1 & Hg1 & Hp).
        rewrite Hg1. change [g1] with ([] ++ [g1]).
        rewrite step_comment_add by exact Hp. now eexists.
    + (* a blank *)
      rewrite orb_false_r. unfold group_step. cbn [is_path is_comment type]. split; assumption.
    + (* a path *)
      rewrite orb_true_r. split; [discriminate|].
      rewrite Hgs, step_path, last_last. simpl.
      intros H. destruct (Group.paths g); discriminate.
Qed.

Lemma no_trailing_heading (es : list GitignoreEntry) :
  trailing_heading es = false ->
  (exists g, collect_groups es = [g]) \/ Forall has_paths (collect_groups es).
Proof.
  intros H. destruct (collect_chained es) as [Hne Hch].
  destruct (collect_last_group es) as [_ Hlast].
  destruct (exists_last Hne) as (acc & g & Hgs). rewrite Hgs in *.
  rewrite last_last in Hlast.
  destruct (Group.paths g) as [|p ps] eqn:E.
  - destruct (Hlast eq_refl) as [Hone|Ht]; [now left|congruence].
  - right. apply Forall_app. split; [now apply chained_init_paths with g|].
    repeat constructor. unfold has_paths. rewrite E. discriminate.
Qed.

(** ** Sorting twice *)

Lemma group_key_no_comment (g : Group.t) :
  Group.comments g = [] -> group_key g = EmptyString.
Proof. unfold group_key. now intros ->. Qed.

Lemma order_groups_chained (sg : bool) (es : list GitignoreEntry) :
  sg = false \/ trailing_heading es = false ->
  exists g gs, order_groups sg (collect_groups es) = g :: gs /\ chained (g :: gs).
Proof.
  intros H. destruct (collect_chained es) as [Hne Hch].
  destruct (collect_groups es) as [|g1 rest] eqn:E; [congruence|].
  destruct sg; [|now exists g1, rest].
  destruct H as [H|H]; [discriminate|]. cbn [order_groups].
  destruct (no_trailing_heading es H) as [[g Hg]|Hp]; rewrite E in *.
  - injection Hg as -> ->. now exists g, [].
  - pose proof (chained_tail_comments _ _ Hch) as Hc.
    destruct (Group.comments g1) as [|c cs] eqn:Ec.
    + rewrite (sort_least_first group_key g1 rest (group_key_no_comment g1 Ec)).
      exists g1, (Py.sort group_key rest). split; [reflexivity|].
      inversion Hp as [|? ? Hg1 Hrest]; subst.
      apply chained_of_Forall; [|now apply sort_Forall].
      constructor; [exact Hg1|now apply sort_Forall].
    + assert (Hc1 : Forall has_comments (g1 :: rest)).
      { constructor; [|exact Hc]. unfold has_comments. rewrite Ec. discriminate. }
      pose proof (sort_Forall group_key Hp) as Hp'.
      pose proof (sort_Forall group_key Hc1) as Hc'.
      destruct (Py.sort group_key (g1 :: rest)) as [|h t] eqn:Es.
      * exfalso. now apply (sort_nonempty group_key (l := g1 :: rest)).
      * exists h, t. split; [reflexivity|].
        apply chained_of_Forall; [exact Hp'|]. now inversion Hc'.
Qed.

Lemma order_groups_ordered (sg : bool) (gs : list Group.t) :
  order_groups sg (order_groups sg gs) = order_groups sg gs.
Proof. destruct sg; [apply sort_idempotent|reflexivity]. Qed.

Lemma order_groups_sort_group (sp sg : bool) (gs : list Group.t) :
  order_groups sg (map (sort_group sp) (order_groups sg gs))
  = map (sort_group sp) (order_groups sg gs).
Proof.
  destruct sg; [|reflexivity]. cbn [order_groups].
  apply sort_of_ordered, ordered_map; [apply sort_group_key|apply sort_ordered].
Qed.

Lemma sorted_entries_idempotent (sp sg : bool) (es : list GitignoreEntry) :
  sg = false \/ trailing_heading es = false ->
  sorted_entries sp sg (sorted_entries sp sg es) = sorted_entries sp sg es.
Proof.
  intros H. destruct (@order_groups_chained sg es H) as (g & gs & Hg & Hch).
  unfold sorted_entries. rewrite collect_removelast_emit.
  assert (Hs : chained (map (sort_group sp) (g :: gs))).
  { apply chained_map; [| |exact Hch].
    - intros x. unfold has_paths, sort_group. simpl.
      destruct sp; [apply sort_nonempty|auto].
    - auto. }
  rewrite Hg in *. cbn [map] in Hs |- *. rewrite (@collect_emit _ _ Hs).
  change (sort_group sp g :: map (sort_group sp) gs)
    with (map (sort_group sp) (g :: gs)).
  rewrite <- Hg, order_groups_sort_group, map_map.
  do 2 f_equal. apply map_ext. intros x. apply sort_group_idempotent.
Qed.

(** C5, as stated, fails: with [sort_groups] set, a heading that follows
    the last path is moved in front of the group it followed, and the next
    sort reads the two headings as one group. *)
Lemma sort_groups_twice_differs :
  entries (snd (sort_gitignore true true heading_after_path))
  = [blank; Entry COMMENT "a"; blank; Entry COMMENT "b"; Entry PATH "x"] /\
  entries (snd (bind (sort_gitignore true true)
                     (fun _ => sort_gitignore true true) heading_after_path))
  = [blank; Entry COMMENT "a"; Entry COMMENT "b"; Entry PATH "x"].
Proof. split; reflexivity. Qed.

(** C5 (amended): sorting twice with the same flags leaves the document
    that sorting once leaves, for every document when [sort_groups] is
    false, and when [sort_groups] is true for every document whose last
    entry that is not blank is not a comment standing after a path. *)
Theorem sort_gitignore_idempotent (sort_paths sort_groups : bool)
    (d : GitignoreFile) :
  sort_groups = false \/ trailing_heading (entries d) = false ->
  bind (sort_gitignore sort_paths sort_groups)
       (fun _ => sort_gitignore sort_paths sort_groups) d
  = sort_gitignore sort_paths sort_groups d.
Proof.
  intros H. unfold bind. rewrite !sort_gitignore_run.
  cbn [entries set_entries]. rewrite (@sorted_entries_idempotent sort_paths sort_groups _ H).
  reflexivity.
Qed.

Lemma sort_gitignore_idempotent_witness :
  bind (sort_gitignore true true) (fun _ => sort_gitignore true true)
       two_sections_parsed
  = sort_gitignore true true two_sections_parsed /\
  bind (sort_gitignore false false) (fun _ => sort_gitignore false false)
       heading_after_path
  = sort_gitignore false false heading_after_path.
Proof.
  split.
  - apply sort_gitignore_idempotent. right. reflexivity.
  - apply sort_gitignore_idempotent. left. reflexivity.
Defined.

(** ** Lines of a text *)

Local Open Scope string_scope.

Definition no_newline (s : string) : Prop :=
  Py.contains_char Py.nl_char s = false.

(** Every line followed by a newline. *)
Fixpoint unlines (l : list string) : string :=
  match l with
  | [] => ""
  | x :: l' => x ++ String Py.nl_char (unlines l')
  end.

Lemma contains_char_app (c : ascii) (a b : string) :
  Py.contains_char c (a ++ b) = Py.contains_char c a || Py.contains_char c b.
Proof.
  induction a as [|x a IH]; cbn [append Py.contains_char]; [reflexivity|].
  now rewrite IH, orb_assoc.
Qed.

Lemma no_newline_app (a b : string) :
  no_newline a -> no_newline b -> no_newline (a ++ b).
Proof.
  unfold no_newline. intros Ha Hb. now rewrite contains_char_app, Ha, Hb.
Qed.

Lemma unlines_app (l l' : list string) :
  unlines (l ++ l') = unlines l ++ unlines l'.
Proof.
  induction l as [|x l IH]; simpl; [reflexivity|].
  rewrite IH, append_assoc. reflexivity.
Qed.

Lemma readlines_line (x rest : string) :
  no_newline x ->
  Py.readlines (x ++ String Py.nl_char rest)
  = (x ++ Py.nl) :: Py.readlines rest.
Proof.
  unfold no_newline. induction x as [|c x IH]; intros H; [reflexivity|].
  cbn [Py.contains_char] in H. apply orb_false_iff in H. destruct H as [Hc Hx].
  change (Py.readlines (String c (x ++ String Py.nl_char rest))
          = String c (x ++ Py.nl) :: Py.readlines rest).
  cbn [Py.readlines]. rewrite Hc, (IH Hx). reflexivity.
Qed.

Lemma rstrip_newline (x : string) :
  no_newline x -> Py.rstrip_by (Py.is_char Py.nl_char) (x ++ Py.nl) = x.
Proof.
  unfold no_newline. induction x as [|c x IH]; intros H; [reflexivity|].
  cbn [Py.contains_char] in H. apply orb_false_iff in H. destruct H as [Hc Hx].
  change (Py.rstrip_by (Py.is_char Py.nl_char) (String c (x ++ Py.nl))
          = String c x).
  cbn [Py.rstrip_by]. rewrite (IH Hx). destruct x; [now rewrite Hc|reflexivity].
Qed.

(** Reading back the lines of a text written line by line. *)
Lemma lines_unlines (l : list string) :
  Forall no_newline l -> lines (unlines l) = l.
Proof.
  unfold lines. induction 1 as [|x l Hx Hl IH]; [reflexivity|].
  cbn [unlines]. rewrite (readlines_line _ Hx). cbn [map].
  now rewrite (rstrip_newline Hx), IH.
Qed.

Lemma split_nl_nonempty (s : string) : Py.split_nl s <> [].
Proof.
  destruct s as [|c r]; cbn [Py.split_nl]; [discriminate|].
  destruct (Py.is_char Py.nl_char c); [discriminate|].
  destruct (Py.split_nl r); discriminate.
Qed.

Lemma join_cons (sep x y : string) (l : list string) :
  Py.join sep (x :: y :: l) = x ++ sep ++ Py.join sep (y :: l).
Proof. reflexivity. Qed.

Lemma join_split_nl (s : string) : Py.join Py.nl (Py.split_nl s) = s.
Proof.
  induction s as [|c r IH]; [reflexivity|]. cbn [Py.split_nl].
  destruct (Py.is_char Py.nl_char c) eqn:E.
  - apply Ascii.eqb_eq in E. subst c.
    destruct (Py.split_nl r) as [|l ls] eqn:Er; [now destruct (split_nl_nonempty r)|].
    rewrite join_cons, IH. reflexivity.
  - destruct (Py.split_nl r) as [|l ls] eqn:Er; [now destruct (split_nl_nonempty r)|].
    destruct ls as [|l' ls].
    + cbn in *. now rewrite IH.
    + rewrite <- IH, !join_cons. reflexivity.
Qed.

Lemma split_nl_no_newline (s : string) : Forall no_newline (Py.split_nl s).
Proof.
  induction s as [|c r IH]; [repeat constructor|]. cbn [Py.split_nl].
  destruct (Py.is_char Py.nl_char c) eqn:E.
  - constructor; [reflexivity|exact IH].
  - destruct (Py.split_nl r) as [|l ls]; [repeat constructor|].
    + unfold no_newline. cbn [Py.contains_char]. now rewrite E.
    + inversion IH as [|? ? Hl Hls]; subst. constructor; [|exact Hls].
      unfold no_newline in *. cbn [Py.contains_char]. now rewrite E, Hl.
Qed.

Lemma unlines_join (l : list string) :
  l <> [] -> unlines l = Py.join Py.nl l ++ Py.nl.
Proof.
  induction l as [|x l IH]; [congruence|]. intros _.
  destruct l as [|y l].
  - reflexivity.
  - rewrite join_cons. cbn [unlines] in *. rewrite IH by discriminate.
    now rewrite !append_assoc.
Qed.

(** The rendered text, as lines. *)
Lemma render_unlines (d : GitignoreFile) :
  entries d <> [] ->
  render d
  = unlines (GENERATED_GUARD_START_TEMPLATE
               (format_optional (generated_content_hash d))
             :: Py.split_nl (generated_content d)
             ++ GENERATED_GUARD_END :: map entry_str (entries d))%list.
Proof.
  intros Hne. rewrite render_text. cbn [unlines]. rewrite unlines_app.
  rewrite (unlines_join (split_nl_nonempty _)), join_split_nl.
  cbn [unlines]. rewrite unlines_join by (destruct (entries d); [congruence|discriminate]).
  now rewrite !append_assoc.
Qed.

(** ** Guard lines *)

Lemma strip_prefix_app (p r : string) : Py.strip_prefix p (p ++ r) = Some r.
Proof.
  induction p as [|c p IH]; [now destruct r|].
  cbn [append Py.strip_prefix]. now rewrite Ascii.eqb_refl.
Qed.

Lemma unsnoc_app (s : string) (c : ascii) :
  Py.unsnoc (s ++ String c "") = Some (s, c).
Proof.
  induction s as [|x s IH]; [reflexivity|].
  cbn [append Py.unsnoc]. now rewrite IH.
Qed.

(** A guard line written from a template is matched by its pattern, which
    gives the hash back. *)
Lemma match_bracketed_template (prefix h : string) :
  no_newline h ->
  Py.match_bracketed prefix "]" (prefix ++ h ++ "]") = Some h.
Proof.
  intros Hh. unfold Py.match_bracketed.
  rewrite strip_prefix_app, unsnoc_app.
  change (Py.is_char Py.nl_char "]") with false. cbn iota.
  rewrite unsnoc_app. change (Py.is_char "]" "]") with true.
  unfold no_newline in Hh. now rewrite Hh.
Qed.

Lemma start_guard_template (h : string) :
  no_newline h ->
  GENERATED_GUARD_START_REGEX (GENERATED_GUARD_START_TEMPLATE h) = Some h.
Proof. apply match_bracketed_template. Qed.

Lemma strip_prefix_hash_none (p s : string) :
  Py.startswith "#" s = false ->
  Py.strip_prefix (String Py.hash_char p) s = None.
Proof.
  destruct s as [|c s]; [reflexivity|].
  unfold Py.startswith. cbn [String.prefix Py.strip_prefix].
  destruct (ascii_dec "#" c) as [<-|Hc].
  - now destruct s.
  - intros _. destruct (Ascii.eqb_spec Py.hash_char c) as [E|_]; [|reflexivity].
    now destruct Hc.
Qed.

(** ** Entries the parser reads back *)

Section Canonical.
Variable e : GitignoreEntry.
Hypothesis He : canonical e = true.

Lemma canonical_no_newline : no_newline (entry_str e).
Proof.
  unfold canonical, entry_str, is_comment, no_newline in *.
  destruct e as [[] v]; cbn [type value] in *.
  - apply andb_true_iff in He. destruct He as [Hn _].
    apply negb_true_iff in Hn. rewrite contains_char_app, Hn. reflexivity.
  - apply String.eqb_eq in He. now subst.
  - apply andb_true_iff in He. destruct He as [He' _].
    apply andb_true_iff in He'. destruct He' as [Hn _].
    now apply negb_true_iff in Hn.
Qed.

Lemma canonical_not_guard : GENERATED_GUARD_START_REGEX (entry_str e) = None.
Proof.
  unfold canonical, entry_str, is_comment in *.
  unfold GENERATED_GUARD_START_REGEX, Py.match_bracketed.
  destruct e as [[] v]; cbn [type value] in *.
  - reflexivity.
  - apply String.eqb_eq in He. now subst.
  - apply andb_true_iff in He. destruct He as [He' _].
    apply andb_true_iff in He'. destruct He' as [_ Hs].
    apply negb_true_iff in Hs.
    change GUARD_START_PREFIX
      with (String Py.hash_char "## START-GENERATED-CONTENT [HASH: ").
    now rewrite strip_prefix_hash_none.
Qed.

Lemma canonical_user_entry : user_entry (entry_str e) = e.
Proof.
  unfold canonical, entry_str, is_comment, user_entry in *.
  destruct e as [[] v]; cbn [type value] in *.
  - apply andb_true_iff in He. destruct He as [_ Hl].
    apply String.eqb_eq in Hl.
    change (Py.startswith "#" ("# " ++ v)) with true. cbn iota.
    change (Py.lstrip (Py.tail ("# " ++ v))) with (Py.lstrip v).
    now rewrite Hl.
  - apply String.eqb_eq in He. now subst.
  - apply andb_true_iff in He. destruct He as [He' Hb].
    apply andb_true_iff in He'. destruct He' as [_ Hs].
    apply negb_true_iff in Hs. apply negb_true_iff in Hb.
    now rewrite Hs, Hb.
Qed.
End Canonical.

(** ** The digest is a line of hexadecimal digits *)

Lemma hex_digit_no_newline (n : N) :
  Py.is_char Py.nl_char (Sha256.hex_digit n) = false.
Proof.
  unfold Sha256.hex_digit.
  generalize (N.to_nat n). intros k.
  do 16 (destruct k as [|k]; [reflexivity|]). now destruct k.
Qed.

Lemma hex_nibbles_no_newline (k : nat) (x : N) :
  no_newline (Sha256.hex_nibbles k x).
Proof.
  unfold no_newline. induction k as [|k IH]; [reflexivity|].
  cbn [Sha256.hex_nibbles Py.contains_char].
  now rewrite hex_digit_no_newline, IH.
Qed.

Lemma concat_no_newline (l : list string) :
  Forall no_newline l -> no_newline (String.concat "" l).
Proof.
  induction 1 as [|x l Hx Hl IH]; [reflexivity|].
  destruct l as [|y l]; [exact Hx|].
  change (no_newline (x ++ "" ++ String.concat "" (y :: l))).
  apply no_newline_app; [exact Hx|exact IH].
Qed.

Lemma hash_content_no_newline (s : string) : no_newline (hash_content s).
Proof.
  unfold hash_content, Sha256.hexdigest. apply concat_no_newline.
  apply Forall_forall. intros x Hx. apply in_map_iff in Hx.
  destruct Hx as (w & <- & _). apply hex_nibbles_no_newline.
Qed.

(** ** Parsing what was rendered *)

Lemma process_generated_lines (ls : list string) (d : GitignoreFile)
    (acc : list string) :
  ~ In GENERATED_GUARD_END ls ->
  fold_left process_line ls (Parser d GENERATED acc)
  = Parser (set_parameters_hash (scan_parameters_hash ls (parameters_hash d)) d)
           GENERATED (acc ++ ls)%list.
Proof.
  revert d acc; induction ls as [|s ls IH]; intros d acc Hno.
  - cbn. rewrite app_nil_r. now destruct d.
  - cbn [fold_left]. unfold process_line at 2. cbn [state].
    destruct (String.eqb_spec s GENERATED_GUARD_END) as [->|_].
    + exfalso. apply Hno. now left.
    + cbn [gitignore generated_lines]. rewrite IH
        by (intros Hin; apply Hno; now right).
      rewrite <- app_assoc. cbn [app scan_parameters_hash fold_left].
      destruct (PARAMETER_HASH_REGEX s); now destruct d.
Qed.

Lemma option_string_eqb_eq (a : option string) (b : string) :
  option_string_eqb a (Some b) = true -> a = Some b.
Proof.
  destruct a as [x|]; simpl; [|discriminate].
  intros H. apply String.eqb_eq in H. now subst.
Qed.

(** C1, as stated, fails: for a document with no entry, [render] still
    writes the newline that ends the user section, and [parse] reads the
    empty line it makes as a blank entry; and the whitespace a comment
    value starts with is not read back. *)
Lemma parse_render_empty_document :
  (check_generated_content_hash empty_refreshed = true /\
   entries empty_refreshed = [] /\
   parse (render empty_refreshed)
   = Return (set_entries [Entry BLANK ""] empty_refreshed)) /\
  (check_generated_content_hash indented_comment = true /\
   parse (render indented_comment)
   = Return (set_entries [Entry COMMENT "x"] indented_comment)).
Proof.
  split; [split; [|split]|split]; vm_compute; reflexivity.
Qed.

(** C1 (amended): for a document with at least one entry, whose entries are
    in the form the parser produces, whose generated content has no line
    equal to the end guard, whose generated content hash was refreshed and
    whose parameters hash is the one carried by the last marker line of the
    generated content (unset when there is none), parsing the rendered text
    returns the document itself: the same entries, generated content,
    generated content hash and parameters hash. *)
Theorem parse_render_roundtrip (d : GitignoreFile) :
  entries d <> [] ->
  forallb canonical (entries d) = true ->
  ~ In GENERATED_GUARD_END (Py.split_nl (generated_content d)) ->
  check_generated_content_hash d = true ->
  parameters_hash d
  = scan_parameters_hash (Py.split_nl (generated_content d)) None ->
  parse (render d) = Return d.
Proof.
  intros Hne Hcan Hend Hhash Hparams.
  apply option_string_eqb_eq in Hhash.
  pose proof (hash_content_no_newline (generated_content d)) as Hh.
  rewrite forallb_forall in Hcan.
  rewrite parse_lines, (@render_unlines d Hne), Hhash. cbn [format_optional].
  rewrite lines_unlines.
  - cbn [fold_left]. unfold process_line at 2, parser_init.
    cbn [state gitignore generated_lines].
    rewrite (@start_guard_template _ Hh), fold_left_app.
    rewrite (@process_generated_lines _ _ _ Hend).
    cbn [fold_left app]. unfold process_line at 2.
    cbn [state gitignore generated_lines].
    rewrite String.eqb_refl, join_split_nl, process_user_lines.
    + unfold finish. cbn [state gitignore]. f_equal.
      rewrite map_map, (map_ext_in _ (fun e => e)), map_id
        by (intros e He; now apply canonical_user_entry, Hcan).
      unfold set_entries, set_generated_content, set_parameters_hash,
        set_generated_content_hash, GitignoreFile_init.
      cbn [entries generated_content generated_content_hash parameters_hash app].
      rewrite <- Hparams, <- Hhash. now destruct d.
    + intros s Hs. apply in_map_iff in Hs. destruct Hs as (e & <- & He).
      now apply canonical_not_guard, Hcan.
  - constructor.
    + unfold GENERATED_GUARD_START_TEMPLATE.
      apply no_newline_app; [reflexivity|].
      apply no_newline_app; [exact Hh|reflexivity].
    + apply Forall_app. split; [apply split_nl_no_newline|].
      constructor; [reflexivity|].
      apply Forall_forall. intros s Hs. apply in_map_iff in Hs.
      destruct Hs as (e & <- & He). now apply canonical_no_newline, Hcan.
Qed.

Lemma not_In_existsb (x : string) (l : list string) :
  existsb (String.eqb x) l = false -> ~ In x l.
Proof.
  intros H Hin. assert (Ht : existsb (String.eqb x) l = true).
  { apply existsb_exists. exists x. split; [exact Hin|apply String.eqb_refl]. }
  congruence.
Qed.

Lemma parse_render_roundtrip_witness :
  parse (render refreshed_doc) = Return refreshed_doc.
Proof.
  apply parse_render_roundtrip.
  - discriminate.
  - vm_compute. reflexivity.
  - apply not_In_existsb. vm_compute. reflexivity.
  - vm_compute. reflexivity.
  - vm_compute. reflexivity.
Defined.

(* ===================================================================== *)
(** * Further properties of the document engine *)
(* ===================================================================== *)

(** ** What the parser reads *)

Lemma lstrip_by_no_head (p : ascii -> bool) (s : string) :
  Py.lstrip_by p (Py.lstrip_by p s) = Py.lstrip_by p s.
Proof.
  induction s as [|c s IH]; [reflexivity|]. cbn [Py.lstrip_by].
  destruct (p c) eqn:E; [exact IH|]. cbn [Py.lstrip_by]. now rewrite E.
Qed.

Lemma lstrip_by_no_newline (p : ascii -> bool) (s : string) :
  no_newline s -> no_newline (Py.lstrip_by p s).
Proof.
  unfold no_newline. induction s as [|c s IH]; [reflexivity|].
  intros H. cbn [Py.lstrip_by]. destruct (p c); [|exact H].
  cbn [Py.contains_char] in H. apply orb_false_iff in H. now apply IH.
Qed.

Lemma rstrip_no_newline (x : string) :
  no_newline x -> Py.rstrip_by (Py.is_char Py.nl_char) x = x.
Proof.
  unfold no_newline. induction x as [|c x IH]; intros H; [reflexivity|].
  cbn [Py.contains_char] in H. apply orb_false_iff in H. destruct H as [Hc Hx].
  cbn [Py.rstrip_by]. rewrite (IH Hx). destruct x; [now rewrite Hc|reflexivity].
Qed.

(** A line read from a text is free of newlines, but for the one that may
    end it. *)
Lemma readlines_shape (s : string) :
  Forall (fun l => exists x, no_newline x /\ (l = x ++ Py.nl \/ l = x))
         (Py.readlines s).
Proof.
  induction s as [|c r IH]; [constructor|]. cbn [Py.readlines].
  destruct (Py.is_char Py.nl_char c) eqn:E.
  - constructor; [|exact IH]. exists "". split; [reflexivity|left].
    apply Ascii.eqb_eq in E. now subst c.
  - destruct (Py.readlines r) as [|l ls].
    + constructor; [|constructor]. exists (String c ""). split; [|now right].
      unfold no_newline. cbn [Py.contains_char]. now rewrite E.
    + inversion IH as [|? ? (x & Hx & Hl) Hls]; subst.
      constructor; [|exact Hls]. exists (String c x). split.
      * unfold no_newline in *. cbn [Py.contains_char]. now rewrite E, Hx.
      * destruct Hl as [->| ->]; [now left|now right].
Qed.

Lemma lines_no_newline (text : string) : Forall no_newline (lines text).
Proof.
  unfold lines. apply Forall_map.
  eapply Forall_impl; [|apply readlines_shape].
  intros l (x & Hx & [->| ->]).
  - now rewrite rstrip_newline.
  - now rewrite rstrip_no_newline.
Qed.

(** The entry made of a line is in the form of [canonical]. *)
Lemma user_entry_canonical (line : string) :
  no_newline line -> canonical (user_entry line) = true.
Proof.
  intros Hl. unfold user_entry.
  destruct (Py.startswith "#" line) eqn:Es.
  - unfold canonical. cbn [type value]. apply andb_true_iff. split.
    + apply negb_true_iff. apply lstrip_by_no_newline.
      destruct line as [|c r]; [reflexivity|].
      unfold no_newline in *. cbn [Py.contains_char Py.tail] in *.
      now apply orb_false_iff in Hl.
    + apply String.eqb_eq. apply lstrip_by_no_head.
  - destruct (String.eqb (Py.strip line) "") eqn:Eb; [reflexivity|].
    unfold canonical. cbn [type value]. unfold no_newline in Hl.
    now rewrite Hl, Es, Eb.
Qed.

(** The group of a guard line holds no newline. *)
Lemma match_bracketed_no_newline (prefix : string) (c : ascii) (s h : string) :
  Py.match_bracketed prefix c s = Some h -> no_newline h.
Proof.
  unfold Py.match_bracketed, no_newline.
  destruct (Py.strip_prefix prefix s) as [rest|]; [|discriminate].
  destruct (Py.unsnoc _) as [[mid c']|]; [|discriminate].
  destruct (Py.contains_char Py.nl_char mid) eqn:E.
  - rewrite andb_false_r. discriminate.
  - destruct (Py.is_char c c'); [|discriminate]. now intros [= <-].
Qed.

Lemma scan_parameters_hash_snoc (ls : list string) (s : string)
    (init : option string) :
  scan_parameters_hash (ls ++ [s]) init
  = match PARAMETER_HASH_REGEX s with
    | Some h => Some h
    | None => scan_parameters_hash ls init
    end.
Proof. unfold scan_parameters_hash. now rewrite fold_left_app. Qed.

(** What holds of the parser's variables after any number of lines. *)
Record parser_ok (p : parser) : Prop := ParserOk {
  ok_lines : Forall no_newline (generated_lines p);
  ok_open : ~ In GENERATED_GUARD_END (generated_lines p);
  ok_params : parameters_hash (gitignore p)
              = scan_parameters_hash (generated_lines p) None;
  ok_hash : forall h, generated_content_hash (gitignore p) = Some h ->
                      no_newline h;
  ok_unset : generated_content_hash (gitignore p) = None ->
             generated_content (gitignore p) = "" /\ generated_lines p = [];
  ok_opened : state p = GENERATED ->
              generated_content_hash (gitignore p) <> None;
  ok_closed : state p = USER ->
              generated_content_hash (gitignore p) = None \/
              generated_content (gitignore p)
              = Py.join Py.nl (generated_lines p);
  ok_entries : forallb canonical (entries (gitignore p)) = true
}.

Lemma parser_init_ok : parser_ok parser_init.
Proof.
  constructor; cbn; auto; discriminate.
Qed.

Lemma process_line_ok (p : parser) (line : string) :
  no_newline line -> parser_ok p -> parser_ok (process_line p line).
Proof.
  intros Hl [H1 H2 H3 H4 H5 H8 H6 H7]. unfold process_line.
  destruct (state p) eqn:Es.
  - destruct (GENERATED_GUARD_START_REGEX line) as [h|] eqn:Er.
    + constructor; cbn [gitignore state generated_lines
                          set_generated_content_hash generated_content_hash
                          generated_content parameters_hash entries]; auto;
        try discriminate.
      intros h' [= <-]. now apply match_bracketed_no_newline in Er.
    + constructor; cbn [gitignore state generated_lines append_entry
                          set_entries generated_content_hash
                          generated_content parameters_hash entries]; auto;
        try discriminate.
      rewrite forallb_app, H7. cbn. now rewrite user_entry_canonical.
  - specialize (H8 eq_refl).
    destruct (String.eqb_spec line GENERATED_GUARD_END) as [->|Hne].
    + constructor; cbn [gitignore state generated_lines
                          set_generated_content generated_content_hash
                          generated_content parameters_hash entries]; auto;
        try discriminate.
      intros Hn. now destruct H8.
    + assert (Hsame : generated_content_hash
                        match PARAMETER_HASH_REGEX line with
                        | Some h => set_parameters_hash (Some h) (gitignore p)
                        | None => gitignore p
                        end = generated_content_hash (gitignore p))
        by now destruct (PARAMETER_HASH_REGEX line).
      constructor; cbn [gitignore state generated_lines]; rewrite ?Hsame;
        auto; try discriminate.
      * apply Forall_app. split; [exact H1|now constructor].
      * intros Hin. apply in_app_or in Hin. destruct Hin as [Hin|[Hin|[]]];
          [now apply H2|now apply Hne].
      * rewrite scan_parameters_hash_snoc.
        destruct (PARAMETER_HASH_REGEX line); [reflexivity|exact H3].
      * intros Hn. now destruct H8.
      * destruct (PARAMETER_HASH_REGEX line); exact H7.
Qed.

Lemma fold_process_ok (ls : list string) (p : parser) :
  Forall no_newline ls -> parser_ok p ->
  parser_ok (fold_left process_line ls p).
Proof.
  intros Hls. revert p. induction Hls as [|l ls Hl Hls IH]; intros p Hp;
    [exact Hp|].
  cbn [fold_left]. apply IH. now apply process_line_ok.
Qed.

Lemma parse_ok (text : string) :
  parser_ok (fold_left process_line (lines text) parser_init).
Proof. apply fold_process_ok; [apply lines_no_newline|apply parser_init_ok]. Qed.

Lemma parse_returns (text : string) (d : GitignoreFile) :
  parse text = Return d ->
  let p := fold_left process_line (lines text) parser_init in
  state p = USER /\ gitignore p = d.
Proof.
  rewrite parse_lines. unfold finish. cbv zeta.
  destruct (state (fold_left process_line (lines text) parser_init));
    [|discriminate].
  intros [= <-]. auto.
Qed.

(** X1: every entry of a document that [parse] returns is in the form of
    [canonical]: a comment value starts with no whitespace, a blank has the
    empty value, a path is not blank and does not start with [#], and no
    value holds a newline. *)
Theorem parse_entries_canonical (text : string) (d : GitignoreFile) :
  parse text = Return d -> forallb canonical (entries d) = true.
Proof.
  intros H. destruct (parse_returns _ H) as [_ <-].
  apply (ok_entries (parse_ok text)).
Qed.

Lemma parse_entries_canonical_witness :
  forallb canonical
    [Entry COMMENT "heading"; Entry BLANK ""; Entry PATH "build/";
     Entry COMMENT "## END-GENERATED-CONTENT"] = true.
Proof.
  apply (@parse_entries_canonical user_only_text
           (File [Entry COMMENT "heading"; Entry BLANK ""; Entry PATH "build/";
                  Entry COMMENT "## END-GENERATED-CONTENT"] "" None None)).
  reflexivity.
Defined.

(** X2: [parse] raises exactly when some line matches the start guard and
    no line after it is the end guard; in every other case it returns a
    document. *)
Theorem parse_raises_iff (text : string) :
  (parse text = Raise (GitignoreException "Generated section never closed") <->
   exists before s after h,
     lines text = (before ++ s :: after)%list /\
     GENERATED_GUARD_START_REGEX s = Some h /\
     ~ In GENERATED_GUARD_END after) /\
  ((forall before s after h,
      lines text = (before ++ s :: after)%list ->
      GENERATED_GUARD_START_REGEX s = Some h ->
      In GENERATED_GUARD_END after) <->
   exists d, parse text = Return d).
Proof.
  assert (Hopen : forall ls p,
            state (fold_left process_line ls p) = GENERATED ->
            state p = USER ->
            exists before s after h,
              ls = (before ++ s :: after)%list /\
              GENERATED_GUARD_START_REGEX s = Some h /\
              ~ In GENERATED_GUARD_END after).
  { intros ls p. induction ls as [|x l IH] using rev_ind; intros Hg Hu.
    - cbn in Hg. congruence.
    - rewrite fold_left_app in Hg. cbn [fold_left] in Hg.
      unfold process_line at 1 in Hg.
      destruct (state (fold_left process_line l p)) eqn:Es.
      + destruct (GENERATED_GUARD_START_REGEX x) as [h|] eqn:Er;
          [|cbn [state] in Hg; discriminate].
        exists l, x, [], h. auto.
      + destruct (String.eqb_spec x GENERATED_GUARD_END) as [->|Hne];
          [cbn [state] in Hg; discriminate|].
        destruct (IH eq_refl Hu) as (b & s & a & h & -> & Hs & Hno).
        exists b, s, (a ++ [x])%list, h. split; [now rewrite <- app_assoc|].
        split; [exact Hs|]. intros Hin. apply in_app_or in Hin.
        destruct Hin as [Hin|[Hin|[]]]; [now apply Hno|now apply Hne]. }
  assert (Hraise : parse text
                   = Raise (GitignoreException "Generated section never closed") <->
                   exists before s after h,
                     lines text = (before ++ s :: after)%list /\
                     GENERATED_GUARD_START_REGEX s = Some h /\
                     ~ In GENERATED_GUARD_END after).
  { rewrite parse_lines. unfold finish. split.
    - destruct (state (fold_left process_line (lines text) parser_init)) eqn:Es;
        [discriminate|]. intros _. now apply (Hopen _ _ Es).
    - intros (b & s & a & h & Hl & Hs & Hno). rewrite Hl, fold_left_app.
      cbn [fold_left]. rewrite process_unclosed; [reflexivity| |exact Hno].
      now apply start_guard_opens with h. }
  split; [exact Hraise|]. split.
  - intros Hall. rewrite parse_lines. unfold finish.
    destruct (state (fold_left process_line (lines text) parser_init)) eqn:Es;
      [eexists; reflexivity|].
    destruct (Hopen _ _ Es eq_refl) as (b & s & a & h & Hl & Hs & Hno).
    destruct Hno. now apply (Hall b s a h).
  - intros [d Hd] b s a h Hl Hs.
    destruct (in_dec string_dec GENERATED_GUARD_END a) as [Hin|Hno];
      [exact Hin|].
    assert (Hr : parse text
                 = Raise (GitignoreException "Generated section never closed"))
      by (apply Hraise; now exists b, s, a, h).
    congruence.
Qed.

(** ** Splitting what was joined *)

Lemma split_nl_line (x : string) : no_newline x -> Py.split_nl x = [x].
Proof.
  unfold no_newline. induction x as [|c x IH]; intros H; [reflexivity|].
  cbn [Py.contains_char] in H. apply orb_false_iff in H. destruct H as [Hc Hx].
  cbn [Py.split_nl]. now rewrite Hc, (IH Hx).
Qed.

Lemma split_nl_app_nl (a b : string) :
  Py.split_nl (a ++ String Py.nl_char b) = (Py.split_nl a ++ Py.split_nl b)%list.
Proof.
  induction a as [|c a IH]; [reflexivity|].
  change (Py.split_nl (String c (a ++ String Py.nl_char b))
          = (Py.split_nl (String c a) ++ Py.split_nl b)%list).
  cbn [Py.split_nl]. rewrite IH.
  destruct (Py.is_char Py.nl_char c); [reflexivity|].
  destruct (Py.split_nl a) as [|l ls] eqn:E;
    [now destruct (split_nl_nonempty a)|reflexivity].
Qed.

Lemma split_nl_join (l : list string) :
  l <> [] -> Py.split_nl (Py.join Py.nl l) = flat_map Py.split_nl l.
Proof.
  induction l as [|x l IH]; [congruence|]. intros _.
  destruct l as [|y l].
  - cbn. now rewrite app_nil_r.
  - rewrite join_cons.
    change (x ++ Py.nl ++ Py.join Py.nl (y :: l))
      with (x ++ String Py.nl_char (Py.join Py.nl (y :: l))).
    rewrite split_nl_app_nl, IH by discriminate. reflexivity.
Qed.

Lemma flat_map_lines (l : list string) :
  Forall no_newline l -> flat_map Py.split_nl l = l.
Proof.
  induction 1 as [|x l Hx Hl IH]; [reflexivity|].
  cbn [flat_map]. now rewrite (split_nl_line Hx), IH.
Qed.

(** ** Rendering and parsing again *)

(** The token [render] writes in the start guard. *)
Definition rendered_hash (d : GitignoreFile) : string :=
  format_optional (generated_content_hash d).

Lemma roundtrip_core (d : GitignoreFile) :
  entries d <> [] ->
  forallb canonical (entries d) = true ->
  ~ In GENERATED_GUARD_END (Py.split_nl (generated_content d)) ->
  no_newline (rendered_hash d) ->
  parameters_hash d
  = scan_parameters_hash (Py.split_nl (generated_content d)) None ->
  parse (render d)
  = Return (set_generated_content_hash (Some (rendered_hash d)) d).
Proof.
  intros Hne Hcan Hend Hh Hparams. unfold rendered_hash in *.
  rewrite forallb_forall in Hcan.
  rewrite parse_lines, (@render_unlines d Hne).
  rewrite lines_unlines.
  - cbn [fold_left]. unfold process_line at 2, parser_init.
    cbn [state gitignore generated_lines].
    rewrite (@start_guard_template _ Hh), fold_left_app.
    rewrite (@process_generated_lines _ _ _ Hend).
    cbn [fold_left app]. unfold process_line at 2.
    cbn [state gitignore generated_lines].
    rewrite String.eqb_refl, join_split_nl, process_user_lines.
    + unfold finish. cbn [state gitignore]. f_equal.
      rewrite map_map, (map_ext_in _ (fun e => e)), map_id
        by (intros e He; now apply canonical_user_entry, Hcan).
      unfold set_entries, set_generated_content, set_parameters_hash,
        set_generated_content_hash, GitignoreFile_init.
      cbn [entries generated_content generated_content_hash parameters_hash app].
      now rewrite <- Hparams.
    + intros s Hs. apply in_map_iff in Hs. destruct Hs as (e & <- & He).
      now apply canonical_not_guard, Hcan.
  - constructor.
    + unfold GENERATED_GUARD_START_TEMPLATE.
      apply no_newline_app; [reflexivity|].
      apply no_newline_app; [exact Hh|reflexivity].
    + apply Forall_app. split; [apply split_nl_no_newline|].
      constructor; [reflexivity|].
      apply Forall_forall. intros s Hs. apply in_map_iff in Hs.
      destruct Hs as (e & <- & He). now apply canonical_no_newline, Hcan.
Qed.

(** X3: a document whose generated content hash is unset does not come
    back from [render] and [parse] as it was: with at least one entry, all
    in the form of [canonical], a generated content without an end-guard
    line and the parameters hash of its last marker line, the parsed
    document is the rendered one except that its generated content hash is
    the text [None]. *)
Theorem parse_render_unset_hash (d : GitignoreFile) :
  generated_content_hash d = None ->
  entries d <> [] ->
  forallb canonical (entries d) = true ->
  ~ In GENERATED_GUARD_END (Py.split_nl (generated_content d)) ->
  parameters_hash d
  = scan_parameters_hash (Py.split_nl (generated_content d)) None ->
  parse (render d) = Return (set_generated_content_hash (Some "None") d).
Proof.
  intros Hnone Hne Hcan Hend Hparams.
  assert (Hh : no_newline (rendered_hash d))
    by (unfold rendered_hash; now rewrite Hnone).
  rewrite (@roundtrip_core d Hne Hcan Hend Hh Hparams).
  unfold rendered_hash. now rewrite Hnone.
Qed.

Lemma parse_render_unset_hash_witness :
  parse (render two_sections_parsed)
  = Return (set_generated_content_hash (Some "None") two_sections_parsed).
Proof.
  apply parse_render_unset_hash; try reflexivity.
  - discriminate.
  - cbn. intros [H|[]]. discriminate.
Defined.

(** What [parse] guarantees of the document it returns. *)
Lemma parsed_document_ok (text : string) (d : GitignoreFile) :
  parse text = Return d ->
  forallb canonical (entries d) = true /\
  ~ In GENERATED_GUARD_END (Py.split_nl (generated_content d)) /\
  no_newline (rendered_hash d) /\
  parameters_hash d
  = scan_parameters_hash (Py.split_nl (generated_content d)) None.
Proof.
  intros Hp. destruct (parse_returns _ Hp) as [Hu Hd].
  pose proof (parse_ok text) as [H1 H2 H3 H4 H5 _ H6 H7].
  rewrite Hd in *. specialize (H6 Hu).
  assert (Hlines : ~ In GENERATED_GUARD_END (Py.split_nl (generated_content d))
                   /\ scan_parameters_hash (Py.split_nl (generated_content d)) None
                      = parameters_hash d).
  { set (acc := generated_lines
                  (fold_left process_line (lines text) parser_init)) in *.
    assert (Hempty : generated_content d = "" -> acc = [] ->
              ~ In GENERATED_GUARD_END (Py.split_nl (generated_content d)) /\
              scan_parameters_hash (Py.split_nl (generated_content d)) None
              = parameters_hash d).
    { intros -> Ha. rewrite H3, Ha. split; [|reflexivity].
      cbn. intros [H|[]]. discriminate. }
    destruct acc as [|a acc'] eqn:Ea.
    - destruct H6 as [Hn|Hg]; [|now apply Hempty].
      destruct (H5 Hn). now apply Hempty.
    - destruct H6 as [Hn|Hg]; [destruct (H5 Hn); discriminate|].
      rewrite Hg, split_nl_join, flat_map_lines by (assumption || discriminate).
      split; [exact H2|now rewrite H3]. }
  destruct Hlines as [Hend Hscan].
  repeat split; auto.
  unfold rendered_hash. destruct (generated_content_hash d) as [h|] eqn:E;
    [now apply H4|reflexivity].
Qed.

(** X4: a document that [parse] returns with at least one entry is read
    back from its rendering: [parse (render d)] returns [d] itself when the
    parsed text had a start guard, and [d] with the text [None] as
    generated content hash when it had none. *)
Theorem parse_render_parsed (text : string) (d : GitignoreFile) :
  parse text = Return d ->
  entries d <> [] ->
  parse (render d)
  = Return (set_generated_content_hash (Some (rendered_hash d)) d) /\
  (generated_content_hash d <> None -> parse (render d) = Return d).
Proof.
  intros Hp Hne.
  destruct (@parsed_document_ok text d Hp) as (Hcan & Hend & Hh & Hparams).
  assert (Hcore := @roundtrip_core d Hne Hcan Hend Hh Hparams).
  split; [exact Hcore|].
  intros Hset. rewrite Hcore. unfold rendered_hash.
  destruct d as [es gc [h|] ph]; [reflexivity|now destruct Hset].
Qed.

Definition guarded_text : string :=
  "### START-GENERATED-CONTENT [HASH: abc]" ++ Py.nl
  ++ "### [PARAMETERS_HASH: 123]" ++ Py.nl
  ++ "*.pyc" ++ Py.nl
  ++ "### END-GENERATED-CONTENT" ++ Py.nl
  ++ "#build" ++ Py.nl ++ "dist/".

Lemma parse_render_parsed_witness :
  parse (render (File [Entry COMMENT "build"; Entry PATH "dist/"]
                      ("### [PARAMETERS_HASH: 123]" ++ Py.nl ++ "*.pyc")
                      (Some "abc") (Some "123")))
  = Return (File [Entry COMMENT "build"; Entry PATH "dist/"]
                 ("### [PARAMETERS_HASH: 123]" ++ Py.nl ++ "*.pyc")
                 (Some "abc") (Some "123")).
Proof.
  refine (proj2 (@parse_render_parsed guarded_text _ _ _) _).
  - reflexivity.
  - discriminate.
  - discriminate.
Defined.

(** ** From a refresh to the next run *)

Lemma scan_parameters_hash_app (l1 l2 : list string) (init : option string) :
  scan_parameters_hash (l1 ++ l2) init
  = scan_parameters_hash l2 (scan_parameters_hash l1 init).
Proof. unfold scan_parameters_hash. now rewrite fold_left_app. Qed.

Lemma scan_parameters_hash_none (ls : list string) (init : option string) :
  (forall l, In l ls -> PARAMETER_HASH_REGEX l = None) ->
  scan_parameters_hash ls init = init.
Proof.
  revert init; induction ls as [|x ls IH]; intros init H; [reflexivity|].
  cbn [scan_parameters_hash fold_left]. rewrite (H x (or_introl eq_refl)).
  apply IH. intros l Hl. apply H. now right.
Qed.

(** The lines of the text [refresh_generated_content] assembles. *)
Lemma assemble_lines (h fetched : string) (extra_paths : list string) :
  no_newline h ->
  Py.split_nl (assemble_generated_content h fetched extra_paths)
  = (Py.split_nl GENERATED_GUARD_DESCRIPTION
     ++ [PARAMETER_HASH_TEMPLATE h; ""]
     ++ Py.split_nl fetched
     ++ ["# Extra paths"]
     ++ flat_map Py.split_nl extra_paths
     ++ [BANNER_RULE])%list.
Proof.
  intros Hh. unfold assemble_generated_content.
  rewrite split_nl_join by discriminate.
  cbn [app flat_map]. rewrite flat_map_app. cbn [flat_map].
  assert (Hm : no_newline (PARAMETER_HASH_TEMPLATE h)).
  { unfold PARAMETER_HASH_TEMPLATE. apply no_newline_app; [reflexivity|].
    apply no_newline_app; [exact Hh|reflexivity]. }
  rewrite (split_nl_line Hm).
  change (Py.split_nl "") with [""].
  change (Py.split_nl "# Extra paths") with ["# Extra paths"].
  replace (Py.split_nl BANNER_RULE) with [BANNER_RULE]
    by (vm_compute; reflexivity).
  rewrite app_nil_r. reflexivity.
Qed.

(** A line of generated content that is neither the end guard nor a
    parameters marker. *)
Definition plain_line (l : string) : Prop :=
  l <> GENERATED_GUARD_END /\ PARAMETER_HASH_REGEX l = None.

Ltac plain_concrete :=
  split; [intros Heq; vm_compute in Heq; discriminate|vm_compute; reflexivity].

Lemma description_plain :
  Forall plain_line (Py.split_nl GENERATED_GUARD_DESCRIPTION).
Proof.
  replace (Py.split_nl GENERATED_GUARD_DESCRIPTION)
    with [BANNER_RULE;
          "# THIS SECTION WAS AUTOMATICALLY GENERATED BY KRAKEN; DO NOT MODIFY OR YOUR CHANGES WILL BE LOST.";
          "# If you need to define custom gitignore rules, add them below";
          BANNER_RULE]
    by (vm_compute; reflexivity).
  repeat (constructor; [plain_concrete|]). constructor.
Qed.

Lemma assembled_content_scanned (h fetched : string) (extra_paths : list string) :
  no_newline h ->
  Forall plain_line (Py.split_nl fetched ++ flat_map Py.split_nl extra_paths) ->
  ~ In GENERATED_GUARD_END
       (Py.split_nl (assemble_generated_content h fetched extra_paths)) /\
  scan_parameters_hash
    (Py.split_nl (assemble_generated_content h fetched extra_paths)) None
  = Some h.
Proof.
  intros Hh Hbody. apply Forall_app in Hbody. destruct Hbody as [Hf He].
  rewrite (assemble_lines _ _ Hh).
  assert (Hmark : PARAMETER_HASH_REGEX (PARAMETER_HASH_TEMPLATE h) = Some h)
    by now apply match_bracketed_template.
  assert (Hrest : Forall plain_line
            ([""] ++ Py.split_nl fetched ++ ["# Extra paths"]
             ++ flat_map Py.split_nl extra_paths ++ [BANNER_RULE])%list).
  { apply Forall_app. split; [constructor; [plain_concrete|constructor]|].
    apply Forall_app. split; [exact Hf|].
    apply Forall_app. split; [constructor; [plain_concrete|constructor]|].
    apply Forall_app. split; [exact He|].
    constructor; [plain_concrete|constructor]. }
  change ([PARAMETER_HASH_TEMPLATE h; ""] ++ Py.split_nl fetched
          ++ ["# Extra paths"] ++ flat_map Py.split_nl extra_paths
          ++ [BANNER_RULE])%list
    with ([PARAMETER_HASH_TEMPLATE h]
          ++ ([""] ++ Py.split_nl fetched ++ ["# Extra paths"]
              ++ flat_map Py.split_nl extra_paths ++ [BANNER_RULE]))%list.
  set (rest := ([""] ++ Py.split_nl fetched ++ ["# Extra paths"]
                ++ flat_map Py.split_nl extra_paths ++ [BANNER_RULE])%list) in *.
  pose proof description_plain as Hd.
  rewrite Forall_forall in Hd, Hrest. split.
  - intros Hin. apply in_app_or in Hin. destruct Hin as [Hin|Hin].
    + now apply (proj1 (Hd _ Hin)).
    + apply in_app_or in Hin. destruct Hin as [[Hin|[]]|Hin].
      * rewrite Hin in Hmark. vm_compute in Hmark. discriminate.
      * now apply (proj1 (Hrest _ Hin)).
  - rewrite !scan_parameters_hash_app.
    rewrite (@scan_parameters_hash_none
               (Py.split_nl GENERATED_GUARD_DESCRIPTION) None)
      by (intros l Hl; apply (proj2 (Hd _ Hl))).
    cbn [scan_parameters_hash fold_left]. rewrite Hmark.
    apply scan_parameters_hash_none. intros l Hl. apply (proj2 (Hrest _ Hl)).
Qed.

(** X5: after [refresh_generated_content] got a response and the hash of
    the new content was refreshed, the document is read back from its
    rendering as it is, and both checks hold of it; this for a document
    with at least one entry, all in the form of [canonical], when no line
    of the fetched text or of the extra paths is the end guard or matches
    the parameters marker. *)
Theorem refresh_render_parse (httpx_get : string -> http_result)
    (tokens extra_paths : list string) (d : GitignoreFile) (text : string) :
  httpx_get (GITIGNORE_API_URL ++ Py.join "," tokens) = Response 200 text ->
  entries d <> [] ->
  forallb canonical (entries d) = true ->
  Forall plain_line (Py.split_nl (Py.remove_char Py.cr_char text)
                     ++ flat_map Py.split_nl extra_paths) ->
  exists d',
    bind (refresh_generated_content httpx_get tokens extra_paths)
         (fun _ => refresh_generated_content_hash) d = (Return tt, d') /\
    parse (render d') = Return d' /\
    check_generation_parameters tokens extra_paths d' = true /\
    check_generated_content_hash d' = true.
Proof.
  intros Hresp Hne Hcan Hbody.
  unfold bind. rewrite refresh_run, Hresp.
  change (200 =? 200)%Z with true. cbn iota.
  unfold refresh_generated_content_hash, modify, set_generated_content_hash.
  cbn [entries generated_content parameters_hash].
  set (hp := hash_parameters tokens extra_paths).
  set (gc := assemble_generated_content hp
               (Py.remove_char Py.cr_char text) extra_paths).
  exists (File (entries d) gc (Some (hash_content gc)) (Some hp)).
  split; [reflexivity|].
  assert (Hhp : no_newline hp) by apply hash_content_no_newline.
  destruct (@assembled_content_scanned _ _ _ Hhp Hbody) as [Hend Hscan].
  fold gc in Hend, Hscan.
  split; [|split].
  - rewrite roundtrip_core; cbn [entries generated_content parameters_hash
                                   generated_content_hash rendered_hash
                                   format_optional]; auto.
    apply hash_content_no_newline.
  - unfold check_generation_parameters. cbn [parameters_hash].
    apply option_string_eqb_refl.
  - unfold check_generated_content_hash.
    cbn [generated_content generated_content_hash].
    apply option_string_eqb_refl.
Qed.

Lemma refresh_render_parse_witness :
  exists d',
    bind (refresh_generated_content provider_pyc ["Python"] ["/my/extra/path"])
         (fun _ => refresh_generated_content_hash) user_doc = (Return tt, d') /\
    parse (render d') = Return d' /\
    check_generation_parameters ["Python"] ["/my/extra/path"] d' = true /\
    check_generated_content_hash d' = true.
Proof.
  apply (@refresh_render_parse provider_pyc ["Python"] ["/my/extra/path"]
           user_doc ("*.pyc" ++ String Py.cr_char Py.nl)).
  - reflexivity.
  - discriminate.
  - reflexivity.
  - repeat (constructor; [plain_concrete|]). constructor.
Defined.

(** ** Adding, removing and listing entries *)

Local Open Scope list_scope.
Unset Implicit Arguments.















Lemma find_index_app {A} (p : A -> bool) (l l' : list A) :
  find_index p (l ++ l')
  = match find_index p l with
    | Some j => Some j
    | None => option_map (Nat.add (List.length l)) (find_index p l')
    end.
Proof.
  induction l as [|x l IH]; cbn [app find_index List.length].
  - now destruct (find_index p l').
  - destruct (p x); [reflexivity|]. rewrite IH.
    destruct (find_index p l); [reflexivity|].
    now destruct (find_index p l').
Qed.

(** X8: after [add_comment(c)] at the end, [find_comment(t)] answers as
    before when a comment matched [t] already; otherwise it finds the new
    entry, at the old length, exactly when [c] without its leading [#]
    characters and the whitespace around it is [t]. *)
Theorem find_comment_after_add (c t : string) (d : GitignoreFile) :
  find_comment t (snd (add_comment c None d))
  = match find_comment t d with
    | Some j => Some j
    | None => if String.eqb (comment_text c) t
              then Some (List.length (entries d)) else None
    end.
Proof.
  unfold add_comment. rewrite insert_entry_end. unfold find_comment.
  cbn [snd append_entries set_entries entries].
  rewrite find_index_app. destruct (find_index _ (entries d)); [reflexivity|].
  cbn [find_index]. unfold comment_matches at 1, comment_text.
  cbn [is_comment type value andb].
  destruct (String.eqb _ t); cbn; [now rewrite Nat.add_0_r|reflexivity].
Qed.

(** ** Listing the paths *)





(** X10: what [paths()] lists after a call that returned: [add_path(p)] at
    the end adds [p] at the end, and [remove_path(p)] leaves the paths that
    are not [p], in their order. *)
Theorem paths_after_edit (p : string) (d d' : GitignoreFile) :
  (add_path p None d = (Return tt, d') ->
   paths None None d' = paths None None d ++ [p]) /\
  (remove_path p d = (Return tt, d') ->
   paths None None d'
   = filter (fun q => negb (String.eqb q p)) (paths None None d)).
Proof.
  unfold paths, islice. cbn [skipn]. split.
  - unfold add_path. rewrite insert_entry_end. intros [= <-].
    cbn [append_entries set_entries entries].
    now rewrite filter_app, map_app.
  - rewrite remove_path_run.
    destruct (nonempty _); [|discriminate]. intros [= <-].
    cbn [set_entries entries].
    induction (entries d) as [|e es IH]; [reflexivity|].
    cbn [filter]. unfold miss at 1, path_matches at 1.
    destruct (is_path e) eqn:Ep; destruct (String.eqb (value e) p) eqn:Ev;
      cbn [andb negb filter map]; rewrite ?Ep; cbn [map filter];
      rewrite ?Ev; cbn [negb]; rewrite ?IH; reflexivity.
Qed.

Lemma paths_after_edit_witness :
  paths None None (GitignoreFile_init [Entry COMMENT "a"; Entry PATH "b"])
  = ["b"].
Proof.
  refine (proj2 (paths_after_edit "a" three_a _) _).
  rewrite remove_path_run. reflexivity.
Defined.

(** ** What sorting keeps *)

Lemma insert_perm {A} (key : A -> string) (x : A) (l : list A) :
  Permutation (Py.insert key x l) (x :: l).
Proof.
  induction l as [|y l IH]; cbn [Py.insert]; [reflexivity|].
  destruct (String.ltb (key y) (key x)); [|reflexivity].
  rewrite IH. apply perm_swap.
Qed.

Lemma sort_perm {A} (key : A -> string) (l : list A) :
  Permutation (Py.sort key l) l.
Proof.
  induction l as [|x l IH]; cbn [Py.sort]; [reflexivity|].
  rewrite insert_perm. now constructor.
Qed.

Definition nonblank (e : GitignoreEntry) : bool := negb (is_blank e).

(** The comments and the paths of a group, as entries. *)
Definition group_body (g : Group.t) : list GitignoreEntry :=
  map (Entry COMMENT) (Group.comments g) ++ map (Entry PATH) (Group.paths g).

Lemma group_body_nonblank (g : Group.t) :
  filter nonblank (group_body g) = group_body g.
Proof.
  unfold group_body. rewrite filter_app. f_equal.
  - induction (Group.comments g) as [|c cs IH]; [reflexivity|].
    cbn. now rewrite IH.
  - induction (Group.paths g) as [|c cs IH]; [reflexivity|].
    cbn. now rewrite IH.
Qed.

Lemma group_entries_body (g : Group.t) :
  group_entries g = group_body g ++ [blank].
Proof. unfold group_entries, group_body. now rewrite <- app_assoc. Qed.

Lemma emit_nonblank (gs : list Group.t) :
  filter nonblank (emit gs) = flat_map group_body gs.
Proof.
  unfold emit. cbn [filter nonblank is_blank blank type negb].
  induction gs as [|g gs IH]; [reflexivity|].
  cbn [map List.concat flat_map]. rewrite filter_app, IH, group_entries_body.
  rewrite filter_app, group_body_nonblank. cbn. now rewrite app_nil_r.
Qed.

Lemma removelast_emit_nonblank (gs : list Group.t) :
  filter nonblank (removelast (emit gs)) = flat_map group_body gs.
Proof.
  rewrite <- emit_nonblank. destruct (emit_ends_blank gs) as [body ->].
  rewrite removelast_last, filter_app. cbn. now rewrite app_nil_r.
Qed.

Lemma flat_snoc (acc : list Group.t) (g : Group.t) :
  flat_map group_body (acc ++ [g]) = flat_map group_body acc ++ group_body g.
Proof. rewrite flat_map_app. cbn. now rewrite app_nil_r. Qed.

Lemma group_step_flat (gs : list Group.t) (e : GitignoreEntry) :
  gs <> [] ->
  flat_map group_body (group_step gs e)
  = flat_map group_body gs ++ filter nonblank [e].
Proof.
  intros Hne. destruct (exists_last Hne) as (acc & g & ->).
  destruct e as [[] v].
  - destruct (Group.paths g) as [|p ps] eqn:E.
    + rewrite step_comment_add by exact E. rewrite !flat_snoc.
      unfold group_body. cbn [Group.comments Group.paths map].
      rewrite E, map_app. cbn. now rewrite !app_nil_r, <- app_assoc.
    + rewrite step_comment_open by (rewrite E; discriminate).
      change (acc ++ [g; Group.Make [v] []])
        with (acc ++ [g] ++ [Group.Make [v] []]).
      rewrite app_assoc, flat_snoc. reflexivity.
  - cbn. now rewrite app_nil_r.
  - rewrite step_path, !flat_snoc. unfold group_body.
    cbn [Group.comments Group.paths]. rewrite map_app. cbn.
    now rewrite <- !app_assoc.
Qed.

Lemma group_step_nonempty (gs : list Group.t) (e : GitignoreEntry) :
  gs <> [] -> group_step gs e <> [].
Proof.
  intros Hne. destruct (exists_last Hne) as (acc & g & ->).
  destruct e as [[] v].
  - destruct (Group.paths g) as [|p ps] eqn:E.
    + rewrite step_comment_add by exact E. now destruct acc.
    + rewrite step_comment_open by (rewrite E; discriminate). now destruct acc.
  - exact Hne.
  - rewrite step_path. now destruct acc.
Qed.

Lemma fold_step_flat (es : list GitignoreEntry) (gs : list Group.t) :
  gs <> [] ->
  flat_map group_body (fold_left group_step es gs)
  = flat_map group_body gs ++ filter nonblank es.
Proof.
  revert gs; induction es as [|e es IH]; intros gs Hne.
  - cbn. now rewrite app_nil_r.
  - cbn [fold_left]. rewrite IH by now apply group_step_nonempty.
    rewrite (group_step_flat _ _ Hne), <- app_assoc, <- filter_app.
    reflexivity.
Qed.

(** The groups hold the entries that are not blank, in their order. *)
Lemma collect_flat (es : list GitignoreEntry) :
  flat_map group_body (collect_groups es) = filter nonblank es.
Proof. unfold collect_groups. now rewrite fold_step_flat. Qed.

Lemma sort_group_body_perm (sp : bool) (g : Group.t) :
  Permutation (group_body (sort_group sp g)) (group_body g).
Proof.
  unfold group_body, sort_group. cbn [Group.comments Group.paths].
  apply Permutation_app_head. destruct sp; [|reflexivity].
  apply Permutation_map, sort_perm.
Qed.

Lemma sort_group_off (g : Group.t) : sort_group false g = g.
Proof. now destruct g. Qed.

Lemma sorted_groups_perm (sp sg : bool) (es : list GitignoreEntry) :
  Permutation
    (flat_map group_body
       (map (sort_group sp) (order_groups sg (collect_groups es))))
    (filter nonblank es).
Proof.
  rewrite <- collect_flat.
  transitivity (flat_map group_body (order_groups sg (collect_groups es))).
  - induction (order_groups sg (collect_groups es)) as [|g gs IH];
      [reflexivity|].
    cbn [map flat_map]. apply Permutation_app; [|exact IH].
    apply sort_group_body_perm.
  - apply Permutation_flat_map. unfold order_groups.
    destruct sg; [apply sort_perm|reflexivity].
Qed.

(** X11: [sort_gitignore] never adds, drops or changes a comment or a path:
    the entries that are not blank are the same before and after, up to
    their order, and in the same order when both flags are off. *)
Theorem sort_keeps_entries (sort_paths sort_groups : bool) (d : GitignoreFile) :
  let d' := snd (sort_gitignore sort_paths sort_groups d) in
  Permutation (filter nonblank (entries d')) (filter nonblank (entries d)) /\
  Permutation (paths None None d') (paths None None d) /\
  (sort_paths = false -> sort_groups = false ->
   filter nonblank (entries d') = filter nonblank (entries d)).
Proof.
  cbv zeta. rewrite sort_gitignore_run. cbn [snd set_entries entries].
  unfold sorted_entries. rewrite removelast_emit_nonblank.
  pose proof (sorted_groups_perm sort_paths sort_groups (entries d)) as Hperm.
  split; [exact Hperm|]. split.
  - unfold paths, islice. cbn [skipn entries set_entries].
    assert (Hp : forall l, filter is_path l = filter is_path (filter nonblank l)).
    { induction l as [|e l IH]; [reflexivity|].
      destruct e as [[] v]; cbn; now rewrite IH. }
    rewrite (Hp (removelast _)), (Hp (entries d)), removelast_emit_nonblank.
    apply Permutation_map.
    assert (Hf : forall l l' : list GitignoreEntry,
               Permutation l l' -> Permutation (filter is_path l) (filter is_path l')).
    { induction 1 as [|x l l' Hl IH|x y l|l l' l'' H1 IH1 H2 IH2]; cbn;
        [reflexivity| | |now transitivity (filter is_path l')].
      - destruct (is_path x); [now constructor|exact IH].
      - destruct (is_path x), (is_path y); try reflexivity. apply perm_swap. }
    now apply Hf.
  - intros -> ->. cbn [order_groups].
    rewrite (map_ext _ (fun g => g) sort_group_off), map_id.
    apply collect_flat.
Qed.





(** X13: two comments in a row never open two groups: after any entries,
    a comment followed by a comment is read into one group, whose comments
    end with the two. *)
Theorem consecutive_comments_one_group (es : list GitignoreEntry) (a b : string) :
  exists acc cs,
    collect_groups (es ++ [Entry COMMENT a])
    = acc ++ [Group.Make (cs ++ [a]) []] /\
    collect_groups (es ++ [Entry COMMENT a; Entry COMMENT b])
    = acc ++ [Group.Make (cs ++ [a; b]) []].
Proof.
  change (es ++ [Entry COMMENT a; Entry COMMENT b])
    with (es ++ [Entry COMMENT a] ++ [Entry COMMENT b]).
  rewrite app_assoc, (collect_snoc (es ++ [Entry COMMENT a])), collect_snoc.
  destruct (collect_chained es) as [Hne _].
  destruct (exists_last Hne) as (acc & g & ->).
  destruct (Group.paths g) as [|p ps] eqn:E.
  - exists acc, (Group.comments g).
    rewrite step_comment_add by exact E.
    rewrite step_comment_add by reflexivity.
    cbn [Group.comments]. now rewrite <- app_assoc.
  - exists (acc ++ [g]), [].
    rewrite step_comment_open by (rewrite E; discriminate).
    change (acc ++ [g; Group.Make [a] []])
      with (acc ++ [g] ++ [Group.Make [a] []]).
    rewrite app_assoc, step_comment_add by reflexivity.
    split; reflexivity.
Qed.

(** ** The blank entries sorting leaves *)

(** No blank entry is followed by a blank entry. *)
Fixpoint no_double_blank (l : list GitignoreEntry) : bool :=
  match l with
  | e1 :: ((e2 :: _) as r) =>
      negb (is_blank e1 && is_blank e2) && no_double_blank r
  | _ => true
  end.

(** Blocks of entries with one blank entry between two of them. *)
Fixpoint blank_between (blocks : list (list GitignoreEntry)) : list GitignoreEntry :=
  match blocks with
  | [] => []
  | [b] => b
  | b :: rest => b ++ blank :: blank_between rest
  end.

Lemma blank_between_cons (b b' : list GitignoreEntry)
    (rest : list (list GitignoreEntry)) :
  blank_between (b :: b' :: rest) = b ++ blank :: blank_between (b' :: rest).
Proof. reflexivity. Qed.

Lemma removelast_blocks (b : list GitignoreEntry)
    (rest : list (list GitignoreEntry)) :
  removelast (List.concat (map (fun x => x ++ [blank]) (b :: rest)))
  = blank_between (b :: rest).
Proof.
  revert b; induction rest as [|b' rest IH]; intros b.
  - cbn [map List.concat]. rewrite app_nil_r. apply removelast_last.
  - rewrite blank_between_cons, <- IH.
    change (List.concat (map (fun x => x ++ [blank]) (b :: b' :: rest)))
      with ((b ++ [blank])
            ++ List.concat (map (fun x => x ++ [blank]) (b' :: rest))).
    rewrite removelast_app.
    + now rewrite <- app_assoc.
    + cbn [map List.concat]. destruct b'; discriminate.
Qed.

Lemma removelast_cons_nonempty {A} (x : A) (l : list A) :
  l <> [] -> removelast (x :: l) = x :: removelast l.
Proof. destruct l; [congruence|reflexivity]. Qed.

Lemma sorted_entries_blocks (sp sg : bool) (es : list GitignoreEntry) :
  exists g gs,
    map (sort_group sp) (order_groups sg (collect_groups es)) = g :: gs /\
    sorted_entries sp sg es
    = blank :: blank_between (map group_body (g :: gs)).
Proof.
  unfold sorted_entries.
  destruct (map (sort_group sp) (order_groups sg (collect_groups es)))
    as [|g gs] eqn:E.
  - exfalso. apply map_eq_nil in E. destruct (collect_chained es) as [Hne _].
    destruct sg; cbn [order_groups] in E; [|congruence].
    now apply (sort_nonempty group_key Hne).
  - exists g, gs. split; [reflexivity|]. unfold emit.
    rewrite (map_ext group_entries (fun x => group_body x ++ [blank])
               group_entries_body).
    rewrite <- (map_map group_body (fun b => b ++ [blank])).
    rewrite removelast_cons_nonempty
      by (cbn [map List.concat]; destruct (group_body g); discriminate).
    f_equal. apply (removelast_blocks (group_body g) (map group_body gs)).
Qed.

(** A block of entries none of which is blank, and not empty. *)
Definition solid (b : list GitignoreEntry) : Prop :=
  b <> [] /\ forallb nonblank b = true.

Lemma no_double_blank_solid (b rest : list GitignoreEntry) :
  forallb nonblank b = true ->
  no_double_blank (b ++ rest) = no_double_blank rest.
Proof.
  induction b as [|x b IH]; [reflexivity|]. cbn [forallb]. intros H.
  apply andb_true_iff in H. destruct H as [Hx Hb].
  unfold nonblank in Hx. apply negb_true_iff in Hx.
  change ((x :: b) ++ rest) with (x :: (b ++ rest)).
  rewrite <- (IH Hb). cbn [no_double_blank].
  destruct (b ++ rest); [reflexivity|]. now rewrite Hx.
Qed.

Lemma no_double_blank_blocks (blocks : list (list GitignoreEntry)) :
  Forall solid blocks ->
  no_double_blank (blank :: blank_between blocks) = true.
Proof.
  induction 1 as [|b rest [Hne Hb] Hrest IH]; [reflexivity|].
  assert (Hhead : forall l, no_double_blank (blank :: b ++ l)
                            = no_double_blank l).
  { intros l. rewrite <- (no_double_blank_solid b l Hb).
    destruct b as [|x b]; [congruence|]. cbn [forallb] in Hb.
    apply andb_true_iff in Hb. destruct Hb as [Hx _].
    unfold nonblank in Hx. apply negb_true_iff in Hx.
    cbn [no_double_blank app]. now rewrite Hx, andb_false_r. }
  destruct rest as [|b' rest].
  - cbn [blank_between]. rewrite <- (app_nil_r b). apply Hhead.
  - rewrite blank_between_cons, Hhead. exact IH.
Qed.

Lemma last_solid (b : list GitignoreEntry) (dflt : GitignoreEntry) :
  solid b -> is_blank (last b dflt) = false.
Proof.
  intros [Hne Hb]. destruct (exists_last Hne) as (l & x & ->).
  rewrite last_last. rewrite forallb_app in Hb.
  apply andb_true_iff in Hb. destruct Hb as [_ Hx]. cbn in Hx.
  rewrite andb_true_r in Hx. now apply negb_true_iff in Hx.
Qed.

Lemma last_app_nonempty {A} (l1 l2 : list A) (dflt : A) :
  l2 <> [] -> last (l1 ++ l2) dflt = last l2 dflt.
Proof.
  intros H. induction l1 as [|x l1 IH]; [reflexivity|].
  cbn [app last]. rewrite <- IH. destruct (l1 ++ l2) eqn:E; [|reflexivity].
  apply app_eq_nil in E. now destruct E.
Qed.

Lemma last_blocks (blocks : list (list GitignoreEntry)) :
  Forall solid blocks -> blocks <> [] ->
  is_blank (last (blank :: blank_between blocks) blank) = false.
Proof.
  induction 1 as [|b rest Hb Hrest IH]; [congruence|]. intros _.
  destruct rest as [|b' rest].
  - cbn [blank_between]. destruct b as [|x b]; [now destruct Hb|].
    change (last (blank :: x :: b) blank) with (last (x :: b) blank).
    now apply last_solid.
  - rewrite blank_between_cons.
    change (blank :: b ++ blank :: blank_between (b' :: rest))
      with ((blank :: b) ++ blank :: blank_between (b' :: rest)).
    rewrite last_app_nonempty by discriminate. apply IH. discriminate.
Qed.

Lemma in_blocks (blocks : list (list GitignoreEntry)) (e : GitignoreEntry) :
  In e (blank_between blocks) -> e = blank \/ exists b, In b blocks /\ In e b.
Proof.
  induction blocks as [|b rest IH]; [intros []|].
  destruct rest as [|b' rest].
  - cbn [blank_between]. intros H. right. exists b. split; [now left|exact H].
  - rewrite blank_between_cons. intros H. apply in_app_or in H.
    destruct H as [H|[H|H]].
    + right. exists b. split; [now left|exact H].
    + now left.
    + destruct (IH H) as [->|(x & Hx & He)]; [now left|].
      right. exists x. split; [now right|exact He].
Qed.

Lemma group_body_solid (g : Group.t) : group_body g <> [] -> solid (group_body g).
Proof.
  intros H. split; [exact H|]. rewrite <- group_body_nonblank.
  apply forallb_forall. intros x Hx. now apply filter_In in Hx.
Qed.

Lemma collect_all_blank (es : list GitignoreEntry) :
  filter nonblank es = [] -> collect_groups es = [empty_group].
Proof.
  unfold collect_groups. generalize [empty_group].
  induction es as [|e es IH]; intros gs H; [reflexivity|].
  cbn [filter] in H. destruct (nonblank e) eqn:E; [discriminate|].
  cbn [fold_left]. unfold nonblank in E. apply negb_false_iff in E.
  replace (group_step gs e) with gs; [now apply IH|].
  destruct e as [[] v]; try discriminate. reflexivity.
Qed.

Lemma collect_bodies (es : list GitignoreEntry) :
  filter nonblank es <> [] ->
  Forall (fun g => group_body g <> []) (collect_groups es).
Proof.
  intros H. rewrite <- collect_flat in H.
  destruct (collect_chained es) as [Hne Hch].
  destruct (collect_groups es) as [|g rest]; [congruence|].
  destruct rest as [|g' rest].
  - constructor; [|constructor]. cbn in H. now rewrite app_nil_r in H.
  - pose proof (chained_tail_comments _ _ Hch) as Hc.
    destruct Hch as (Hp & _ & _). constructor.
    + unfold group_body. intros Hb. apply app_eq_nil in Hb.
      destruct Hb as [_ Hb]. apply map_eq_nil in Hb. now apply Hp.
    + eapply Forall_impl; [|exact Hc]. intros x Hx Hb.
      unfold group_body in Hb. apply app_eq_nil in Hb.
      destruct Hb as [Hb _]. apply map_eq_nil in Hb. now apply Hx.
Qed.

(** X14: the entries [sort_gitignore] leaves start with a blank entry, have
    no two blank entries in a row, and every blank entry has the empty
    value; they end with a comment or a path, unless the document had
    only blank entries (or none), in which case one blank entry is all
    that is left. *)
Theorem sort_blank_entries (sort_paths sort_groups : bool) (d : GitignoreFile) :
  let out := entries (snd (sort_gitignore sort_paths sort_groups d)) in
  hd_error out = Some blank /\
  no_double_blank out = true /\
  (forall e, In e out -> is_blank e = true -> e = blank) /\
  (filter nonblank (entries d) = [] -> out = [blank]) /\
  (filter nonblank (entries d) <> [] -> is_blank (last out blank) = false).
Proof.
  cbv zeta. rewrite sort_gitignore_run. cbn [snd set_entries entries].
  destruct (sorted_entries_blocks sort_paths sort_groups (entries d))
    as (g & gs & Hgs & ->).
  assert (Hin : forall e, In e (blank :: blank_between (map group_body (g :: gs))) ->
                          is_blank e = true -> e = blank).
  { intros e [<-|He] Hb; [reflexivity|].
    destruct (in_blocks _ _ He) as [->|(b & Hb1 & Hb2)]; [reflexivity|].
    apply in_map_iff in Hb1. destruct Hb1 as (x & <- & _).
    rewrite <- group_body_nonblank in Hb2. apply filter_In in Hb2.
    destruct Hb2 as [_ Hn]. unfold nonblank in Hn. rewrite Hb in Hn.
    discriminate. }
  destruct (filter nonblank (entries d)) as [|x xs] eqn:Ef.
  - rewrite (collect_all_blank _ Ef) in Hgs.
    assert (Hone : g :: gs = [empty_group]).
    { rewrite <- Hgs. now destruct sort_groups, sort_paths. }
    rewrite Hone in *. split; [reflexivity|]. split; [reflexivity|].
    split; [exact Hin|]. split; [reflexivity|]. intros Hn. now destruct Hn.
  - assert (Hsolid : Forall solid (map group_body (g :: gs))).
    { rewrite <- Hgs. apply Forall_map, Forall_map.
      assert (Hb : Forall (fun g => group_body g <> [])
                          (order_groups sort_groups (collect_groups (entries d)))).
      { unfold order_groups. destruct sort_groups;
          [apply sort_Forall|]; apply collect_bodies; rewrite Ef; discriminate. }
      eapply Forall_impl; [|exact Hb]. intros y Hy. apply group_body_solid.
      intros Hn. apply Hy. apply Permutation_nil.
      rewrite <- Hn. apply sort_group_body_perm. }
    split; [reflexivity|]. split; [now apply no_double_blank_blocks|].
    split; [exact Hin|]. split; [discriminate|].
    intros _. apply last_blocks; [exact Hsolid|discriminate].
Qed.

(** ** Texts with and without a generated section *)

Local Open Scope string_scope.

(** X15: a text with no generated section is read back entry by entry: for
    entries in the form of [canonical], parsing their lines returns a
    document with exactly these entries, an empty generated content and no
    hash. *)
Theorem parse_user_entries (es : list GitignoreEntry) :
  forallb canonical es = true ->
  parse (unlines (map entry_str es)) = Return (GitignoreFile_init es).
Proof.
  intros Hcan. rewrite forallb_forall in Hcan.
  rewrite parse_lines, lines_unlines.
  - unfold parser_init. rewrite process_user_lines.
    + unfold finish. cbn [state gitignore]. f_equal.
      unfold set_entries, GitignoreFile_init. cbn [entries app
        generated_content generated_content_hash parameters_hash].
      rewrite map_map, (map_ext_in _ (fun e => e)), map_id; [reflexivity|].
      intros e He. now apply canonical_user_entry, Hcan.
    + intros s Hs. apply in_map_iff in Hs. destruct Hs as (e & <- & He).
      now apply canonical_not_guard, Hcan.
  - apply Forall_forall. intros s Hs. apply in_map_iff in Hs.
    destruct Hs as (e & <- & He). now apply canonical_no_newline, Hcan.
Qed.

Lemma parse_user_entries_witness :
  parse ("# build" ++ Py.nl ++ "" ++ Py.nl ++ "dist/" ++ Py.nl)
  = Return (GitignoreFile_init
              [Entry COMMENT "build"; Entry BLANK ""; Entry PATH "dist/"]).
Proof.
  apply (parse_user_entries
           [Entry COMMENT "build"; Entry BLANK ""; Entry PATH "dist/"]).
  reflexivity.
Defined.

Definition no_start_guard (ls : list string) : Prop :=
  forall s, In s ls -> GENERATED_GUARD_START_REGEX s = None.

Lemma process_section (d : GitignoreFile) (acc g rest : list string)
    (s h : string) :
  GENERATED_GUARD_START_REGEX s = Some h ->
  ~ In GENERATED_GUARD_END g ->
  fold_left process_line (s :: g ++ GENERATED_GUARD_END :: rest)%list
            (Parser d USER acc)
  = fold_left process_line rest
      (Parser (File (entries d) (Py.join Py.nl (acc ++ g)%list) (Some h)
                    (scan_parameters_hash g (parameters_hash d)))
              USER (acc ++ g)%list).
Proof.
  intros Hs Hg. cbn [fold_left]. unfold process_line at 2. cbn [state].
  rewrite Hs. cbn [gitignore generated_lines].
  rewrite fold_left_app, (process_generated_lines _ _ _ Hg).
  cbn [fold_left]. unfold process_line at 2. cbn [state].
  rewrite String.eqb_refl. reflexivity.
Qed.

(** X16: the document [parse] returns for a text with one generated
    section: the lines before the start guard and the lines after the end
    guard are the entries, in this order; the lines between the guards,
    joined by newlines, are the generated content; the hash is the one in
    the start guard and the parameters hash the one of the last marker
    line of the section. *)
Theorem parse_one_section (text : string) (before section after : list string)
    (s h : string) :
  lines text = (before ++ s :: section ++ GENERATED_GUARD_END :: after)%list ->
  no_start_guard before -> no_start_guard after ->
  GENERATED_GUARD_START_REGEX s = Some h ->
  ~ In GENERATED_GUARD_END section ->
  parse text
  = Return (File (map user_entry (before ++ after)%list)
                 (Py.join Py.nl section) (Some h)
                 (scan_parameters_hash section None)).
Proof.
  intros Hl Hb Ha Hs Hg. rewrite parse_lines, Hl. unfold parser_init.
  rewrite fold_left_app, (process_user_lines _ _ _ Hb).
  rewrite (process_section _ _ _ _ _ _ Hs Hg).
  rewrite (process_user_lines _ _ _ Ha). unfold finish.
  cbn [state gitignore set_entries entries generated_content
         generated_content_hash parameters_hash GitignoreFile_init app].
  now rewrite map_app.
Qed.

Lemma parse_one_section_witness :
  parse ("keep" ++ Py.nl ++ guarded_text)
  = Return (File [Entry PATH "keep"; Entry COMMENT "build"; Entry PATH "dist/"]
                 ("### [PARAMETERS_HASH: 123]" ++ Py.nl ++ "*.pyc")
                 (Some "abc") (Some "123")).
Proof.
  apply (parse_one_section _ ["keep"]
           ["### [PARAMETERS_HASH: 123]"; "*.pyc"] ["#build"; "dist/"]
           "### START-GENERATED-CONTENT [HASH: abc]" "abc").
  - reflexivity.
  - intros s [<-|[]]. reflexivity.
  - intros s [<-|[<-|[]]]; reflexivity.
  - reflexivity.
  - cbn. intros [H|[H|[]]]; discriminate.
Defined.

(** X17: the lines of a generated section are never dropped by a later
    one: for a text with two generated sections, the generated content is
    made of the lines of both, the generated content hash is the one of
    the second start guard, and the entries are the lines outside the
    sections. *)
Theorem parse_two_sections (text : string)
    (u0 g1 u1 g2 u2 : list string) (s1 h1 s2 h2 : string) :
  lines text = (u0 ++ s1 :: g1 ++ GENERATED_GUARD_END
                :: u1 ++ s2 :: g2 ++ GENERATED_GUARD_END :: u2)%list ->
  no_start_guard u0 -> no_start_guard u1 -> no_start_guard u2 ->
  GENERATED_GUARD_START_REGEX s1 = Some h1 ->
  GENERATED_GUARD_START_REGEX s2 = Some h2 ->
  ~ In GENERATED_GUARD_END g1 -> ~ In GENERATED_GUARD_END g2 ->
  parse text
  = Return (File (map user_entry (u0 ++ u1 ++ u2)%list)
                 (Py.join Py.nl (g1 ++ g2)%list) (Some h2)
                 (scan_parameters_hash (g1 ++ g2)%list None)).
Proof.
  intros Hl H0 H1 H2 Hs1 Hs2 Hg1 Hg2. rewrite parse_lines, Hl.
  unfold parser_init.
  rewrite fold_left_app, (process_user_lines _ _ _ H0).
  rewrite (process_section _ _ _ _ _ _ Hs1 Hg1).
  rewrite fold_left_app, (process_user_lines _ _ _ H1).
  rewrite (process_section _ _ _ _ _ _ Hs2 Hg2).
  rewrite (process_user_lines _ _ _ H2). unfold finish.
  cbn [state gitignore set_entries entries generated_content
         generated_content_hash parameters_hash GitignoreFile_init app].
  rewrite !map_app, <- !app_assoc, scan_parameters_hash_app. reflexivity.
Qed.

Lemma parse_two_sections_witness :
  parse (guarded_text ++ Py.nl
         ++ "### START-GENERATED-CONTENT [HASH: def]" ++ Py.nl
         ++ "*.log" ++ Py.nl ++ "### END-GENERATED-CONTENT" ++ Py.nl)
  = Return (File [Entry COMMENT "build"; Entry PATH "dist/"]
                 ("### [PARAMETERS_HASH: 123]" ++ Py.nl ++ "*.pyc"
                  ++ Py.nl ++ "*.log")
                 (Some "def") (Some "123")).
Proof.
  apply (parse_two_sections _ []
           ["### [PARAMETERS_HASH: 123]"; "*.pyc"] ["#build"; "dist/"]
           ["*.log"] []
           "### START-GENERATED-CONTENT [HASH: abc]" "abc"
           "### START-GENERATED-CONTENT [HASH: def]" "def").
  - reflexivity.
  - intros s [].
  - intros s [<-|[<-|[]]]; reflexivity.
  - intros s [].
  - reflexivity.
  - reflexivity.
  - cbn. intros [H|[H|[]]]; discriminate.
  - cbn. intros [H|[]]; discriminate.
Defined.

(** ** Parsing, sorting and rendering *)

Lemma sorted_entries_in (sp sg : bool) (es : list GitignoreEntry)
    (e : GitignoreEntry) :
  In e (sorted_entries sp sg es) -> e = blank \/ In e es.
Proof.
  intros He. destruct (is_blank e) eqn:Eb.
  - left. destruct (sorted_entries_blocks sp sg es) as (g & gs & _ & Hs).
    rewrite Hs in He. destruct He as [<-|He]; [reflexivity|].
    destruct (in_blocks _ _ He) as [->|(b & Hb1 & Hb2)]; [reflexivity|].
    apply in_map_iff in Hb1. destruct Hb1 as (x & <- & _).
    rewrite <- group_body_nonblank in Hb2. apply filter_In in Hb2.
    destruct Hb2 as [_ Hn]. unfold nonblank in Hn. rewrite Eb in Hn.
    discriminate.
  - right.
    assert (Hin : In e (filter nonblank (sorted_entries sp sg es))).
    { apply filter_In. split; [exact He|]. unfold nonblank. now rewrite Eb. }
    unfold sorted_entries in Hin. rewrite removelast_emit_nonblank in Hin.
    pose proof (sorted_groups_perm sp sg es) as Hperm.
    apply (Permutation_in _ Hperm) in Hin. now apply filter_In in Hin.
Qed.

(** X18: sorting a parsed document keeps it fit for the round trip: for a
    document [parse] returned from a text with a generated section, the
    document left by [sort_gitignore], whatever the flags, is read back
    from its rendering as it is; its entries are never empty and stay in
    the form of [canonical]. *)
Theorem parse_sort_render_parse (text : string) (sort_paths sort_groups : bool)
    (d : GitignoreFile) :
  parse text = Return d ->
  generated_content_hash d <> None ->
  let d' := snd (sort_gitignore sort_paths sort_groups d) in
  entries d' <> [] /\
  forallb canonical (entries d') = true /\
  parse (render d') = Return d'.
Proof.
  intros Hp Hset. cbv zeta. rewrite sort_gitignore_run.
  cbn [snd]. destruct (@parsed_document_ok text d Hp) as (Hcan & Hend & Hh & Hparams).
  set (d' := set_entries (sorted_entries sort_paths sort_groups (entries d)) d).
  assert (Hne : entries d' <> []).
  { unfold d'. cbn [set_entries entries].
    destruct (sorted_entries_blocks sort_paths sort_groups (entries d))
      as (g & gs & _ & ->). discriminate. }
  assert (Hcan' : forallb canonical (entries d') = true).
  { apply forallb_forall. intros e He. unfold d' in He.
    cbn [set_entries entries] in He.
    destruct (sorted_entries_in _ _ _ _ He) as [->|Hin]; [reflexivity|].
    rewrite forallb_forall in Hcan. now apply Hcan. }
  split; [exact Hne|]. split; [exact Hcan'|].
  rewrite (@roundtrip_core d' Hne Hcan' Hend Hh Hparams).
  unfold rendered_hash, d'. cbn [set_entries generated_content_hash].
  destruct d as [es gc [h|] ph]; [reflexivity|now destruct Hset].
Qed.

Lemma parse_sort_render_parse_witness :
  parse (render (File [blank; Entry COMMENT "build"; Entry PATH "dist/"]
                      ("### [PARAMETERS_HASH: 123]" ++ Py.nl ++ "*.pyc")
                      (Some "abc") (Some "123")))
  = Return (File [blank; Entry COMMENT "build"; Entry PATH "dist/"]
                 ("### [PARAMETERS_HASH: 123]" ++ Py.nl ++ "*.pyc")
                 (Some "abc") (Some "123")).
Proof.
  refine (proj2 (proj2 (parse_sort_render_parse guarded_text true false
            (File [Entry COMMENT "build"; Entry PATH "dist/"]
                  ("### [PARAMETERS_HASH: 123]" ++ Py.nl ++ "*.pyc")
                  (Some "abc") (Some "123")) _ _))).
  - reflexivity.
  - discriminate.
Defined.

(** ** Carriage returns *)

Definition no_carriage_return (s : string) : Prop :=
  Py.contains_char Py.cr_char s = false.

Lemma remove_char_gone (c : ascii) (s : string) :
  Py.contains_char c (Py.remove_char c s) = false.
Proof.
  induction s as [|x s IH]; [reflexivity|]. cbn [Py.remove_char].
  destruct (Py.is_char c x) eqn:E; [exact IH|].
  cbn [Py.contains_char]. now rewrite E, IH.
Qed.

Lemma contains_char_join (c : ascii) (sep : string) (l : list string) :
  Py.contains_char c sep = false ->
  Forall (fun x => Py.contains_char c x = false) l ->
  Py.contains_char c (Py.join sep l) = false.
Proof.
  intros Hsep Hl. induction Hl as [|x l Hx Hl IH]; [reflexivity|].
  destruct l as [|y l]; [exact Hx|].
  rewrite join_cons, !contains_char_app, Hx, Hsep, IH. reflexivity.
Qed.

Lemma hex_digit_no_cr (n : N) :
  Py.is_char Py.cr_char (Sha256.hex_digit n) = false.
Proof.
  unfold Sha256.hex_digit.
  generalize (N.to_nat n). intros k.
  do 16 (destruct k as [|k]; [reflexivity|]). now destruct k.
Qed.

Lemma hash_content_no_cr (s : string) : no_carriage_return (hash_content s).
Proof.
  unfold hash_content, Sha256.hexdigest, no_carriage_return.
  apply (contains_char_join Py.cr_char "" _ eq_refl).
  apply Forall_forall. intros x Hx. apply in_map_iff in Hx.
  destruct Hx as (w & <- & _). generalize 8%nat. intros k.
  induction k as [|k IH]; [reflexivity|].
  cbn [Sha256.hex_nibbles Py.contains_char].
  now rewrite hex_digit_no_cr, IH.
Qed.

(** X19: the generated content [refresh_generated_content] stores has no
    carriage return, whatever the provider's text holds, as long as no
    extra path has one. *)
Theorem refresh_strips_carriage_returns (httpx_get : string -> http_result)
    (tokens extra_paths : list string) (d d' : GitignoreFile) :
  refresh_generated_content httpx_get tokens extra_paths d = (Return tt, d') ->
  Forall no_carriage_return extra_paths ->
  no_carriage_return (generated_content d').
Proof.
  rewrite refresh_run.
  destruct (httpx_get _) as [code text|msg]; [|discriminate].
  destruct (code =? 200)%Z; [|discriminate]. intros [= <-] Hextra.
  cbn [generated_content]. unfold assemble_generated_content, no_carriage_return.
  apply contains_char_join; [reflexivity|].
  apply Forall_app. split; [|apply Forall_app; split].
  - constructor; [vm_compute; reflexivity|].
    constructor.
    { unfold PARAMETER_HASH_TEMPLATE. rewrite !contains_char_app.
      unfold hash_parameters. rewrite hash_content_no_cr. reflexivity. }
    constructor; [reflexivity|].
    constructor; [apply remove_char_gone|].
    constructor; [reflexivity|constructor].
  - exact Hextra.
  - constructor; [vm_compute; reflexivity|constructor].
Qed.

Lemma refresh_strips_carriage_returns_witness :
  no_carriage_return
    (generated_content
       (snd (refresh_generated_content provider_pyc ["Python"]
               ["/my/extra/path"] user_doc))).
Proof.
  apply (refresh_strips_carriage_returns provider_pyc ["Python"]
           ["/my/extra/path"] user_doc).
  - rewrite refresh_run. reflexivity.
  - repeat constructor.
Defined.

(** ** What the edits leave alone *)

